(** * wallet-tool: scanner, hex reporter, argument parser and file copy

    A shallow embedding of [wallet-tool.cpp] and the properties of its
    record scanner ([WalletTool::dumpAllKeys]), hex reporter
    ([WalletTool::tohex]), argument handling ([parseArgs],
    [validateOptions], [isValidHexString]), file copy ([removePassword])
    and [main].

    Conventions of the embedding:
    - a [char] is a [byte]; a [std::string] is a [string];
    - the [int] cursor [i] is a [Z]; the cursor never exceeds the length of
      the container, so for containers below 2 GiB no [int] arithmetic of
      the source overflows;
    - [stdout] and [stderr] are lists of lines, one entry per [std::endl]
      (or per newline of a literal);
    - a thrown [std::exception] is the [Throw] outcome carrying [what()]. *)

From Stdlib Require Import ZArith Strings.Byte Ascii String List Bool Lia.
From Stdlib Require Import Sorted.
From stdpp Require Import gmap strings list.
Import ListNotations.

Local Open Scope Z_scope.

(* ===================================================================== *)
(** ** Hex reporter: [WalletTool::tohex] *)
(* ===================================================================== *)

Module Hex.

(** [static_cast<int>(ptr[i])]: integer promotion of a signed [char]. *)
Definition char_to_int (c : byte) : Z :=
  let u := Z.of_N (Byte.to_N c) in
  if u <? 128 then u else u - 256.

(** One digit as [std::hex] prints it (no [std::uppercase]). *)
Definition hex_digit (d : Z) : ascii :=
  match d with
  | 0 => "0" | 1 => "1" | 2 => "2" | 3 => "3"
  | 4 => "4" | 5 => "5" | 6 => "6" | 7 => "7"
  | 8 => "8" | 9 => "9" | 10 => "a" | 11 => "b"
  | 12 => "c" | 13 => "d" | 14 => "e" | _ => "f"
  end%char.

(** The digits of a non-negative [int] in base 16, without leading zeros
    (an [int] has at most 8 of them). *)
Fixpoint hex_digits (fuel : nat) (v : Z) (acc : string) : string :=
  match fuel with
  | O => acc
  | S fuel' =>
      let acc' := String (hex_digit (v mod 16)) acc in
      if v / 16 =? 0 then acc' else hex_digits fuel' (v / 16) acc'
  end.

(** [std::setw(w) << std::setfill(fill)]: pad on the left up to [w]. *)
Definition pad_left (w : nat) (fill : ascii) (s : string) : string :=
  string_of_list_ascii (repeat fill (w - String.length s)) +:+ s.

(** [ss << std::hex << std::setw(w) << std::setfill(fill) << v]. *)
Definition put_hex (w : nat) (fill : ascii) (v : Z) : string :=
  pad_left w fill (hex_digits 8 v "").

(** The [for] loop of [tohex]; [ss] is the string stream so far. *)
Fixpoint tohex_loop (ptr : list byte) (i : nat) (n : nat) (ss : string)
  : string :=
  match n with
  | O => ss
  | S n' =>
      tohex_loop ptr (S i) n'
        (ss +:+ put_hex 2 "0" (Z.land (char_to_int (nth i ptr x00)) 255))
  end.

Definition tohex (ptr : list byte) (length : Z) : string :=
  tohex_loop ptr 0 (Z.to_nat length) "".

(** The unsigned value of a byte and the two digits that stand for it. *)
Definition byte_val (b : byte) : Z := Z.of_N (Byte.to_N b).

Definition two_digits (b : byte) (rest : string) : string :=
  String (hex_digit (byte_val b / 16))
    (String (hex_digit (byte_val b mod 16)) rest).

(** Reference rendering: two digits per byte, in buffer order. *)
Definition hex_of_bytes (l : list byte) : string :=
  fold_right two_digits "" l.

Definition is_lower_hex (c : ascii) : bool :=
  let n := nat_of_ascii c in
  ((48 <=? n) && (n <=? 57) || (97 <=? n) && (n <=? 102))%nat.

End Hex.

(* ===================================================================== *)
(** ** The C stream operations used by the scanner *)
(* ===================================================================== *)

Module Stdio.

(** A [FILE*] opened for reading: the bytes of the file, the file position
    and the end-of-file indicator. *)
Record FILE := mkFILE {
  contents : list byte;
  fpos : nat;
  eof_flag : bool
}.

Definition fopen_rb (data : list byte) : FILE := mkFILE data 0 false.

(** [fread(buf, 1, n, f)]: the bytes transferred and the stream afterwards.
    A read that meets the end of the file transfers the bytes that are left
    and sets the end-of-file indicator; with the indicator set nothing is
    transferred. *)
Definition fread (n : nat) (f : FILE) : list byte * FILE :=
  if eof_flag f then ([], f)
  else
    let got := firstn n (skipn (fpos f) (contents f)) in
    (got,
     mkFILE (contents f) (fpos f + List.length got)
       (List.length got <? n)%nat).

Definition feof (f : FILE) : bool := eof_flag f.

(** [fseek(f, off, SEEK_SET)]: a negative offset is refused (EINVAL) and
    leaves the stream as it was; the source never looks at the return
    value.  A successful call clears the end-of-file indicator. *)
Definition fseek_set (off : Z) (f : FILE) : FILE :=
  if off <? 0 then f
  else mkFILE (contents f) (Z.to_nat off) false.

(** What a buffer holds after [fread] transferred [got] into it: the bytes
    beyond the transfer keep their previous values. *)
Definition store (buf got : list byte) : list byte :=
  got ++ skipn (List.length got) buf.

(** [strncmp(a, b, n) == 0]. *)
Fixpoint strncmp_eq (a b : list byte) (n : nat) : bool :=
  match n with
  | O => true
  | S n' =>
      match a, b with
      | x :: a', y :: b' =>
          if Byte.eqb x y
          then (if Byte.eqb x x00 then true else strncmp_eq a' b' n')
          else false
      | [], [] => true
      | [], y :: _ => Byte.eqb y x00
      | x :: _, [] => Byte.eqb x x00
      end
  end.

End Stdio.

(* ===================================================================== *)
(** ** Record scanner: [WalletTool::dumpAllKeys] *)
(* ===================================================================== *)

Module Scanner.
Import Hex Stdio.

(** The literals "mkey" and "ckey". *)
Definition tag_mkey : list byte := [x6d; x6b; x65; x79].
Definition tag_ckey : list byte := [x63; x6b; x65; x79].

(** State of the first [while] loop. *)
Record MState := mkM {
  m_wallet : FILE;
  m_i : Z;
  found_mkey : bool;
  mkey_data : list byte;
  m_cout : list string
}.

(** Body of the first loop, entered with the four bytes [mkey] just read
    and the stream [w] as the read left it. *)
Definition mkey_body (mkey : list byte) (w : FILE) (s : MState) : MState :=
  let s1 :=
    if strncmp_eq mkey tag_mkey 4 then
      let mkey_offset := m_i s in
      let w2 := fseek_set (mkey_offset - 72) w in
      let '(got, w3) := fread 48 w2 in
      let data' := store (mkey_data s) got in
      mkM w3 (m_i s) true data'
        (m_cout s ++ ["Mkey_encrypted: " +:+ tohex data' 48; ""])
    else mkM w (m_i s) (found_mkey s) (mkey_data s) (m_cout s) in
  let i' := m_i s1 + 1 in
  mkM (fseek_set i' (m_wallet s1)) i' (found_mkey s1) (mkey_data s1)
    (m_cout s1).

(** The first loop.  Its condition reads four bytes before it looks at
    [found_mkey]; [None] stands for a loop that has not ended within
    [fuel] iterations. *)
Fixpoint mkey_loop (fuel : nat) (s : MState) : option MState :=
  let '(mkey, w) := fread 4 (m_wallet s) in
  if (List.length mkey =? 4)%nat && negb (feof w) && negb (found_mkey s)
  then
    match fuel with
    | O => None
    | S fuel' => mkey_loop fuel' (mkey_body mkey w s)
    end
  else Some (mkM w (m_i s) (found_mkey s) (mkey_data s) (m_cout s)).

(** State of the second [while] loop. *)
Record CState := mkC {
  c_wallet : FILE;
  c_i : Z;
  ckey_data : list byte;
  c_cout : list string
}.

(** Body of the second loop. *)
Definition ckey_body (mkey : list byte) (w : FILE) (s : CState) : CState :=
  let s1 :=
    if strncmp_eq mkey tag_ckey 4 then
      let mkey_offset := c_i s in
      let w2 := fseek_set (mkey_offset - 52) w in
      let '(got, w3) := fread 123 w2 in
      let data' := store (ckey_data s) got in
      let ckey_encrypted := firstn 48 data' in
      mkC w3 (c_i s + 3) data'
        (c_cout s ++ ["encrypted ckey: " +:+ tohex ckey_encrypted 48])
    else mkC w (c_i s) (ckey_data s) (c_cout s) in
  let i' := c_i s1 + 1 in
  mkC (fseek_set i' (c_wallet s1)) i' (ckey_data s1) (c_cout s1).

Fixpoint ckey_loop (fuel : nat) (s : CState) : option CState :=
  let '(mkey, w) := fread 4 (c_wallet s) in
  if (List.length mkey =? 4)%nat && negb (feof w)
  then
    match fuel with
    | O => None
    | S fuel' => ckey_loop fuel' (ckey_body mkey w s)
    end
  else Some (mkC w (c_i s) (ckey_data s) (c_cout s)).

(** [dumpAllKeys] once the wallet is open: [data] is the file, [junk_m] and
    [junk_c] are what [malloc(48)] and [malloc(123)] happen to hold.  The
    result is what is written to [stdout].  The cursor moves by at least
    one byte per iteration, so [S (length data)] iterations are enough for
    either loop. *)
Definition scan_keys (data junk_m junk_c : list byte)
  : option (list string) :=
  let fuel := S (List.length data) in
  match mkey_loop fuel (mkM (fopen_rb data) 0 false junk_m []) with
  | None => None
  | Some s =>
      if negb (found_mkey s)
      then Some (m_cout s ++ ["There is no Master Key in the file"])
      else
        match ckey_loop fuel
                (mkC (fseek_set 0 (m_wallet s)) 0 junk_c (m_cout s)) with
        | None => None
        | Some c => Some (c_cout c)
        end
  end.

(** *** Vocabulary of the statements *)

Fixpoint bytes_eqb (a b : list byte) : bool :=
  match a, b with
  | [], [] => true
  | x :: a', y :: b' => Byte.eqb x y && bytes_eqb a' b'
  | _, _ => false
  end.

(** The four bytes at offset [p] are the tag. *)
Definition tag_at (data tag : list byte) (p : nat) : bool :=
  bytes_eqb (firstn 4 (skipn p data)) tag.

(** The offsets at which the tag occurs, in ascending order. *)
Definition occurrences (tag data : list byte) : list nat :=
  List.filter (tag_at data tag) (seq 0 (List.length data)).

(** The bytes transferred at a tag matched at [p], where the stream stands
    at [p + 4]: [back] is 72 and [n] is 48 for "mkey", 52 and 123 for
    "ckey". *)
Definition window_read (data : list byte) (back : Z) (n p : nat)
  : list byte :=
  fst (fread n (fseek_set (Z.of_nat p - back) (mkFILE data (p + 4) false))).

(** The record line of the first loop for a match at [p], the 48-byte
    buffer holding [buf] before it. *)
Definition mkey_line (data buf : list byte) (p : nat) : string :=
  "Mkey_encrypted: " +:+ tohex (store buf (window_read data 72 48 p)) 48.

(** The lines of the second loop for the matches [ps], the 123-byte buffer
    holding [buf] before the first of them. *)
Fixpoint ckey_lines (data buf : list byte) (ps : list nat) : list string :=
  match ps with
  | [] => []
  | p :: ps' =>
      let buf' := store buf (window_read data 52 123 p) in
      ("encrypted ckey: " +:+ tohex (firstn 48 buf') 48)
        :: ckey_lines data buf' ps'
  end.

(** The window of [n] bytes at offset [p - back] lies inside the file. *)
Definition window_inside (data : list byte) (back n p : nat) : Prop :=
  (back <= p /\ p - back + n <= List.length data)%nat.

Definition has_prefix (pre s : string) : bool := String.prefix pre s.

(** Sample containers: [zeros n] is [n] NUL bytes. *)
Definition zeros (n : nat) : list byte := repeat x00 n.

(** The four bytes "mkey" and nothing else. *)
Definition mkey_only : list byte := tag_mkey.

(** One "ckey" at offset 52 with its whole window, and no "mkey". *)
Definition ckey_only : list byte := zeros 52 ++ tag_ckey ++ zeros 71.

(** Two "ckey" with their whole windows, and no "mkey". *)
Definition two_ckeys : list byte :=
  zeros 52 ++ tag_ckey ++ zeros 60 ++ tag_ckey ++ zeros 71.

(** "mkey" at offset 80 behind 48 bytes 0x11 at offset 8, then "ckey" at
    offset 140 with its whole window. *)
Definition mkey_then_ckey : list byte :=
  zeros 8 ++ repeat x11 48 ++ zeros 24 ++ tag_mkey
    ++ zeros 56 ++ tag_ckey ++ zeros 71.

Definition count_lines (pre : string) (out : list string) : nat :=
  List.length (List.filter (has_prefix pre) out).

End Scanner.

(* ===================================================================== *)
(** ** The environment of a run and the monad of the tool *)
(* ===================================================================== *)

Module Env.

(** What the tool can observe of the machine it runs on (the POSIX branch
    of the source: the home directory comes from [HOME]).  [files] holds the
    regular files by path, and two paths name the same file exactly when
    they are the same string.  [unreadable] and [unwritable] stand for
    permissions, and [heap_junk k] for what the [k]-th [malloc] of the run
    happens to hold.

    The destination of the copy is written through a buffered stream, so
    the device shows in two places.  [write_limit] is the number of bytes
    the stream takes before an insertion fails ([None]: it takes them all);
    bytes that fit in the stream's buffer are taken whether the device will
    accept them or not.  [flush_limit] is the number of bytes that reach
    the file by the time the stream is closed ([None]: all that were
    taken). *)
Record World := mkWorld {
  files : gmap string (list byte);
  dirs : gset string;
  unreadable : gset string;
  unwritable : gset string;
  env_HOME : option string;
  write_limit : option nat;
  flush_limit : option nat;
  heap_junk : nat -> list byte
}.

Definition set_files (f : gmap string (list byte)) (w : World) : World :=
  mkWorld f (dirs w) (unreadable w) (unwritable w) (env_HOME w)
    (write_limit w) (flush_limit w) (heap_junk w).

Definition set_dirs (d : gset string) (w : World) : World :=
  mkWorld (files w) d (unreadable w) (unwritable w) (env_HOME w)
    (write_limit w) (flush_limit w) (heap_junk w).

(** [malloc(n)] as the [k]-th allocation: [n] bytes of unspecified
    content. *)
Definition malloc (w : World) (k n : nat) : list byte :=
  firstn n (heap_junk w k ++ repeat x00 n).

(** [fs::exists(p)]. *)
Definition fs_exists (w : World) (p : string) : bool :=
  bool_decide (is_Some (files w !! p)) || bool_decide (p ∈ dirs w).

(** The first bytes of [l] that pass a limit. *)
Definition limit (o : option nat) (l : list byte) : list byte :=
  match o with
  | None => l
  | Some n => firstn n l
  end.

(** Opening for reading ([fopen(p, "rb")], [std::ifstream]): a path that
    exists and may be read.  A directory is opened like a file; reading it
    yields no byte. *)
Definition open_read (w : World) (p : string) : bool :=
  (bool_decide (is_Some (files w !! p)) || bool_decide (p ∈ dirs w))
  && negb (bool_decide (p ∈ unreadable w)).

(** Opening [p] inside the directory [dir] for writing ([std::ofstream]):
    the directory exists, [p] is not a directory and may be written. *)
Definition open_write (w : World) (dir p : string) : bool :=
  bool_decide (dir ∈ dirs w) && negb (bool_decide (p ∈ dirs w))
  && negb (bool_decide (p ∈ unwritable w)).

Fixpoint ends_with_slash (s : string) : bool :=
  match s with
  | EmptyString => false
  | String c EmptyString => Ascii.eqb c "/"
  | String _ rest => ends_with_slash rest
  end.

(** [fs::path(lhs) / rhs] for a relative [rhs]. *)
Definition path_append (lhs rhs : string) : string :=
  match lhs with
  | EmptyString => rhs
  | _ => if ends_with_slash lhs then lhs +:+ rhs else lhs +:+ "/" +:+ rhs
  end.

(** [what()] of the [fs::filesystem_error] of a refused
    [fs::create_directories(p)]. *)
Definition create_directories_what (p : string) : string :=
  "filesystem error: cannot create directories: Permission denied ["
    +:+ p +:+ "]".

End Env.

Module Exn.
Import Env.

(** How a call ends: it returns, it throws a [std::exception], or a loop
    has not ended within its fuel. *)
Inductive Outcome (A : Type) : Type :=
| Ret (a : A)
| Throw (what : string)
| Diverge.
Arguments Ret {A} a.
Arguments Throw {A} what.
Arguments Diverge {A}.

(** The state a call runs in: the machine and what [std::cout] received. *)
Record Proc := mkProc {
  world : World;
  cout : list string
}.

Definition M (A : Type) : Type := Proc -> Outcome A * Proc.

Definition ret {A} (a : A) : M A := fun st => (Ret a, st).

Definition bind {A B} (c : M A) (k : A -> M B) : M B :=
  fun st =>
    match c st with
    | (Ret a, st') => k a st'
    | (Throw e, st') => (Throw e, st')
    | (Diverge, st') => (Diverge, st')
    end.

Definition throw {A} (what : string) : M A := fun st => (Throw what, st).

(** [try { c } catch (const std::exception& e) { h(e.what()) }]. *)
Definition try_catch {A} (c : M A) (h : string -> M A) : M A :=
  fun st =>
    match c st with
    | (Throw e, st') => h e st'
    | r => r
    end.

(** [std::cout << ... << std::endl], one entry per line. *)
Definition print (lines : list string) : M unit :=
  fun st => (Ret tt, mkProc (world st) (cout st ++ lines)).

Definition get_world : M World := fun st => (Ret (world st), st).

Definition put_world (w : World) : M unit :=
  fun st => (Ret tt, mkProc w (cout st)).

End Exn.

Declare Scope exn_scope.
Delimit Scope exn_scope with exn.
Notation "x <- c ;; k" := (Exn.bind c (fun x => k))
  (at level 100, c at next level, right associativity, only parsing)
  : exn_scope.
Notation "c ;; k" := (Exn.bind c (fun _ => k))
  (at level 100, right associativity, only parsing) : exn_scope.

(* ===================================================================== *)
(** ** [class WalletTool] *)
(* ===================================================================== *)

Module Tool.
Import Hex Stdio Scanner Env Exn.
Local Open Scope exn_scope.

Record WalletTool := mkTool {
  walletPath : string;
  dbType : string;
  hexKey : string;
  removePass : bool;
  dumpKeys : bool
}.

(** A default-constructed [WalletTool]. *)
Definition new_tool : WalletTool := mkTool "" "" "" false false.

Definition empty (s : string) : bool :=
  match s with EmptyString => true | _ => false end.

(** [dumpAllKeys]: open the wallet, then scan it.  A directory opened as
    the wallet reads as no bytes. *)
Definition dumpAllKeys (t : WalletTool) : M unit :=
  w <- get_world ;;
  if negb (open_read w (walletPath t))
  then throw ("Can't open file " +:+ walletPath t)
  else
    match scan_keys (files w !!! walletPath t)
            (malloc w 0 48) (malloc w 1 123) with
    | Some lines => print lines
    | None => fun st => (Diverge, st)
    end.

(** The test of the lambda in [isValidHexString]. *)
Definition is_hex_char (c : ascii) : bool :=
  let n := nat_of_ascii c in
  ((48 <=? n) && (n <=? 57) || (97 <=? n) && (n <=? 102)
   || (65 <=? n) && (n <=? 70))%nat.

Definition isValidHexString (str : string) : bool :=
  if negb (String.length str =? 10)%nat then false
  else forallb is_hex_char (list_ascii_of_string str).

Definition getDesktopPath : M string :=
  w <- get_world ;;
  match env_HOME w with
  | None => throw "Cannot determine home directory"
  | Some home => ret (path_append home "Desktop")
  end.

(** [fs::create_directories(p)]. *)
Definition create_directories (p : string) : M unit :=
  w <- get_world ;;
  if bool_decide (p ∈ unwritable w)
  then throw (create_directories_what p)
  else put_world (set_dirs ({[p]} ∪ dirs w) w).

(** The [try] block of [removePassword].  The destination is truncated
    when it is opened; the source is read when it is copied, through
    [src.rdbuf()].  [operator<<] inserts the bytes the stream takes and
    sets [failbit] only when it has inserted none; [dst.good()] is read
    right after it, before the stream is flushed, and what the file holds
    in the end is what the flush at the end of the block gets written. *)
Definition copy_wallet (src_path desktopDir destPath : string) : M unit :=
  w <- get_world ;;
  if negb (open_read w src_path)
  then throw "Cannot open source wallet file"
  else if negb (open_write w desktopDir destPath)
  then throw "Cannot create destination file"
  else
    let w1 := set_files (<[destPath := []]> (files w)) w in
    let data := files w1 !!! src_path in
    let inserted := limit (write_limit w1) data in
    let dst_good := match inserted with [] => false | _ => true end in
    put_world
      (set_files (<[destPath := limit (flush_limit w1) inserted]> (files w1))
         w1) ;;
    if negb dst_good
    then throw "Error occurred while writing destination file"
    else
      print ["The new wallet.dat file with the password removed was saved to: "
               +:+ destPath].

Definition removePassword (t : WalletTool) : M unit :=
  w <- get_world ;;
  if negb (fs_exists w (walletPath t))
  then throw ("Source wallet file does not exist: " +:+ walletPath t)
  else
    desktopDir <- getDesktopPath ;;
    w' <- get_world ;;
    (if negb (fs_exists w' desktopDir)
     then create_directories desktopDir
     else ret tt) ;;
    let destPath := path_append desktopDir "wallet.dat" in
    try_catch (copy_wallet (walletPath t) desktopDir destPath)
      (fun what => throw ("Failed to process wallet file: " +:+ what)).

Definition showHelp : M unit :=
  print [ "Wallet Tool Usage:";
          "";
          "Option 1: Password Removal";
          "  --wallet <path>           Specify wallet.dat file path";
          "  --type <BerkelyDB|SQLite> Specify database type";
          "  --KEY <5-byte-hex>        Specify 5-byte hexadecimal key";
          "  --remove-pass             Remove wallet password";
          "";
          "Option 2: Key Dumping";
          "  --wallet <path>           Specify wallet.dat file path";
          "  --dump-all-keys           Dump all keys from wallet";
          "";
          "Help:";
          "  --help                    Show this help message" ].

Definition validateOptions (t : WalletTool) : M unit :=
  if empty (walletPath t) then throw "Wallet path must be specified"
  else if dumpKeys t then
    if negb (empty (dbType t)) || negb (empty (hexKey t)) || removePass t
    then throw "--dump-all-keys can only be used with --wallet"
    else ret tt
  else if removePass t then
    if empty (dbType t) || empty (hexKey t)
    then throw "--remove-pass requires --wallet, --type, and --KEY options"
    else ret tt
  else if negb (dumpKeys t) && negb (removePass t)
  then throw "Either --dump-all-keys or --remove-pass must be specified"
  else ret tt.

(** The [for] loop of [parseArgs] over [argv[1..]], followed by
    [validateOptions]; "--help" returns at once, the fields set so far
    staying as they are. *)
Fixpoint parse_loop (args : list string) (t : WalletTool) : M WalletTool :=
  match args with
  | [] => validateOptions t ;; ret t
  | arg :: rest =>
      if String.eqb arg "--help" then showHelp ;; ret t
      else if String.eqb arg "--wallet" then
        match rest with
        | [] => throw "Wallet path not specified"
        | v :: rest' =>
            parse_loop rest'
              (mkTool v (dbType t) (hexKey t) (removePass t) (dumpKeys t))
        end
      else if String.eqb arg "--type" then
        match rest with
        | [] => throw "Database type not specified"
        | v :: rest' =>
            if negb (String.eqb v "BerkelyDB") && negb (String.eqb v "SQLite")
            then throw "Invalid database type. Must be 'BerkelyDB' or 'SQLite'"
            else
              parse_loop rest'
                (mkTool (walletPath t) v (hexKey t) (removePass t)
                   (dumpKeys t))
        end
      else if String.eqb arg "--KEY" then
        match rest with
        | [] => throw "KEY not specified"
        | v :: rest' =>
            if negb (isValidHexString v)
            then throw "Invalid KEY format. Must be a 5-byte hexadecimal string"
            else
              parse_loop rest'
                (mkTool (walletPath t) (dbType t) v (removePass t)
                   (dumpKeys t))
        end
      else if String.eqb arg "--remove-pass" then
        parse_loop rest
          (mkTool (walletPath t) (dbType t) (hexKey t) true (dumpKeys t))
      else if String.eqb arg "--dump-all-keys" then
        parse_loop rest
          (mkTool (walletPath t) (dbType t) (hexKey t) (removePass t) true)
      else throw ("Unknown option: " +:+ arg)
  end.

(** [parseArgs(argc, argv)] with [argc = length argv]. *)
Definition parseArgs (argv : list string) (t : WalletTool) : M WalletTool :=
  if (List.length argv =? 1)%nat
  then throw "No options provided. Use --help for usage information."
  else parse_loop (tl argv) t.

Definition execute (t : WalletTool) : M unit :=
  if dumpKeys t then dumpAllKeys t
  else if removePass t then removePassword t
  else ret tt.

(** What a run leaves behind: the exit code ([None] for a run that has not
    ended), the machine, and the two streams. *)
Record Run := mkRun {
  exit_code : option Z;
  final_world : World;
  stdout : list string;
  stderr : list string
}.

(** The body of the [try] block of [main]. *)
Definition main_body (argv : list string) : M unit :=
  t <- parseArgs argv new_tool ;; execute t.

Definition main (argv : list string) (w : World) : Run :=
  match main_body argv (mkProc w []) with
  | (Ret _, st) => mkRun (Some 0) (world st) (cout st) []
  | (Throw what, st) =>
      mkRun (Some 1) (world st) (cout st) ["Error: " +:+ what]
  | (Diverge, st) => mkRun None (world st) (cout st) []
  end.

(** *** Vocabulary of the statements *)

(** The hexadecimal digits, in both cases. *)
Definition hex_alphabet : list ascii :=
  list_ascii_of_string "0123456789abcdefABCDEF".

(** A machine whose only file is "/w/wallet.dat" holding [data], with the
    home directory "/home/u" and an existing Desktop directory. *)
Definition sample_world (data : list byte) : World :=
  mkWorld {["/w/wallet.dat" := data]} {["/home/u/Desktop"]} ∅ ∅
    (Some "/home/u") None None (fun _ => []).

(** The same machine with the Desktop on a full device: the stream takes
    the bytes into its buffer and none of them reaches the file. *)
Definition full_disk_world (data : list byte) : World :=
  mkWorld {["/w/wallet.dat" := data]} {["/home/u/Desktop"]} ∅ ∅
    (Some "/home/u") None (Some 0%nat) (fun _ => []).

(** A call that has ended: it returned or threw. *)
Definition ended {A} (r : Outcome A * Proc) : Prop :=
  match fst r with Diverge => False | _ => True end.

(** Two tools that differ at most in the value of [hexKey], set in both or
    in neither. *)
Definition same_but_key (t1 t2 : WalletTool) : Prop :=
  walletPath t1 = walletPath t2 /\ dbType t1 = dbType t2
  /\ removePass t1 = removePass t2 /\ dumpKeys t1 = dumpKeys t2
  /\ empty (hexKey t1) = empty (hexKey t2).

(** Two outcomes of the parser that agree up to the value of [hexKey]. *)
Definition same_parse (r1 r2 : Outcome WalletTool * Proc) : Prop :=
  snd r1 = snd r2
  /\ match fst r1, fst r2 with
     | Ret a, Ret b => same_but_key a b
     | Throw e1, Throw e2 => e1 = e2
     | _, _ => False
     end.

(** The argument list with [k] put as the value of every "--KEY" option,
    read as [parse_loop] reads it. *)
Fixpoint subst_key (k : string) (args : list string) : list string :=
  match args with
  | [] => []
  | arg :: rest =>
      if String.eqb arg "--wallet" || String.eqb arg "--type" then
        match rest with
        | [] => [arg]
        | v :: rest' => arg :: v :: subst_key k rest'
        end
      else if String.eqb arg "--KEY" then
        match rest with
        | [] => [arg]
        | _ :: rest' => arg :: k :: subst_key k rest'
        end
      else arg :: subst_key k rest
  end.

(** The command line of a password removal. *)
Definition remove_command (prog src key : string) : list string :=
  [prog; "--wallet"; src; "--type"; "SQLite"; "--KEY"; key; "--remove-pass"].

(** A string of exactly ten hexadecimal digits. *)
Definition ten_hex_digits (k : string) : Prop :=
  String.length k = 10%nat
  /\ forall c : ascii, In c (list_ascii_of_string k) -> In c hex_alphabet.

(** A command line that asks for the help text before a "--KEY" whose
    value is no hexadecimal string. *)
Definition key_behind_help : list string :=
  ["wallet-tool"; "--wallet"; "/w/wallet.dat"; "--remove-pass"; "--help";
   "--KEY"; "zz"].

(** No "--help" stands as an option in [pre], and [pre] ends where an
    option with its value ends: the parser, started on [pre ++ rest], has
    not returned when it comes to the head of [rest], and reads it as an
    option unless it has thrown before. *)
Fixpoint before_help (pre : list string) : bool :=
  match pre with
  | [] => true
  | arg :: rest =>
      if String.eqb arg "--help" then false
      else if String.eqb arg "--wallet" || String.eqb arg "--type"
              || String.eqb arg "--KEY" then
        match rest with
        | [] => false
        | _ :: rest' => before_help rest'
        end
      else before_help rest
  end.

(** The parser reads through [pre]: every argument of it is an option
    other than "--help", followed by its value where it takes one, and the
    values of "--type" and "--KEY" are ones the parser accepts.  Started on
    [pre ++ rest] the parser then goes on with the head of [rest]. *)
Fixpoint passes (pre : list string) : bool :=
  match pre with
  | [] => true
  | arg :: rest =>
      if String.eqb arg "--wallet" then
        match rest with
        | [] => false
        | _ :: rest' => passes rest'
        end
      else if String.eqb arg "--type" then
        match rest with
        | [] => false
        | v :: rest' =>
            (String.eqb v "BerkelyDB" || String.eqb v "SQLite")
            && passes rest'
        end
      else if String.eqb arg "--KEY" then
        match rest with
        | [] => false
        | v :: rest' => isValidHexString v && passes rest'
        end
      else if String.eqb arg "--remove-pass"
              || String.eqb arg "--dump-all-keys"
      then passes rest
      else false
  end.

End Tool.

(* ===================================================================== *)
(** ** [class MetricsCollector] *)
(* ===================================================================== *)

Module Metrics.

(** The static [std::map<std::string, uint64_t> metrics]. *)
Abbreviation Counters := (gmap string Z).

(** [metrics[metric]]: the value under the key, the key being inserted
    with the value 0 when it is absent. *)
Definition subscript (metric : string) (m : Counters) : Z * Counters :=
  match m !! metric with
  | Some v => (v, m)
  | None => (0, <[metric := 0]> m)
  end.

(** [metrics[metric]++] on a [uint64_t]. *)
Definition increment (metric : string) (m : Counters) : Counters :=
  let '(v, m') := subscript metric m in
  <[metric := (v + 1) mod 2 ^ 64]> m'.

Definition reset (m : Counters) : Counters := ∅.

(** [get] returns [metrics[metric]], and so may insert the key. *)
Definition get (metric : string) (m : Counters) : Z * Counters :=
  subscript metric m.

(** Every counter is a [uint64_t]. *)
Definition in_range (m : Counters) : Prop :=
  forall (k : string) (v : Z), m !! k = Some v -> 0 <= v < 2 ^ 64.

End Metrics.

(* ===================================================================== *)
(** ** [class WalletSecurity] *)
(* ===================================================================== *)

Module Security.

(** [failedAttempts] is a [size_t]; [lastAttempt] is a time point of
    [std::chrono::system_clock], held as its count of ticks since the
    epoch.  The clock is an argument of the two operations. *)
Record WalletSecurity := mkSecurity {
  failedAttempts : Z;
  lastAttempt : Z
}.

Definition MAX_ATTEMPTS : Z := 3.

(** A default-constructed object: no failure, and the epoch. *)
Definition new_security : WalletSecurity := mkSecurity 0 0.

(** Ticks of [system_clock] in a minute (with libstdc++ the period of the
    clock is a nanosecond). *)
Definition ticks_per_minute : Z := 60 * 1000000000.

(** [duration_cast<std::chrono::minutes>(d).count()]: truncation toward
    zero. *)
Definition to_minutes (d : Z) : Z := Z.quot d ticks_per_minute.

Definition validateAccess (now : Z) (s : WalletSecurity)
  : bool * WalletSecurity :=
  if failedAttempts s >=? MAX_ATTEMPTS then
    let duration := to_minutes (now - lastAttempt s) in
    if duration <? 30 then (false, s)
    else (true, mkSecurity 0 (lastAttempt s))
  else (true, s).

Definition recordFailedAttempt (now : Z) (s : WalletSecurity)
  : WalletSecurity :=
  mkSecurity ((failedAttempts s + 1) mod 2 ^ 64) now.

End Security.

(* ===================================================================== *)
(** ** [class WalletCache] *)
(* ===================================================================== *)

Module Cache.

Record CacheEntry := mkEntry {
  data : list byte;
  timestamp : Z
}.

Definition MAX_CACHE_SIZE : nat := 1000.

(** The [std::map<std::string, CacheEntry> cache]. *)
Abbreviation Entries := (gmap string CacheEntry).

(** [a] is chosen before [b] by [std::min_element] over the map: its
    timestamp is smaller, or the timestamps are equal and its key comes
    first in the order of the map. *)
Definition before (a b : string * CacheEntry) : bool :=
  (timestamp (snd a) <? timestamp (snd b))
  || ((timestamp (snd a) =? timestamp (snd b)) && String.ltb (fst a) (fst b)).

Definition pick (x : string * CacheEntry) (acc : option (string * CacheEntry))
  : option (string * CacheEntry) :=
  match acc with
  | None => Some x
  | Some y => Some (if before y x then y else x)
  end.

(** [std::min_element(cache.begin(), cache.end(), by timestamp)]; [None]
    is [cache.end()]. *)
Definition oldest (cache : Entries) : option (string * CacheEntry) :=
  foldr pick None (map_to_list cache).

(** [store(key, data)] at the time [now]. *)
Definition store (key : string) (d : list byte) (now : Z) (cache : Entries)
  : Entries :=
  let cache1 :=
    if (MAX_CACHE_SIZE <=? size cache)%nat then
      match oldest cache with
      | Some (k, _) => delete k cache
      | None => cache
      end
    else cache in
  <[key := mkEntry d now]> cache1.

Definition retrieve (key : string) (cache : Entries) : option (list byte) :=
  match cache !! key with
  | Some e => Some (data e)
  | None => None
  end.

(** Sample: the two characters that stand for [n], and a cache of [n]
    entries, entry [i] stored at time [i]. *)
Definition key_of (n : nat) : string :=
  String (ascii_of_nat (n / 256)) (String (ascii_of_nat (n mod 256)) "").

Fixpoint filled (n : nat) : Entries :=
  match n with
  | O => ∅
  | S n' => <[key_of n' := mkEntry [] (Z.of_nat n')]> (filled n')
  end.

End Cache.

(* ===================================================================== *)
(** ** [class LWalletDecryptor]: the integer phases *)
(* ===================================================================== *)

Module Decryptor.
Import Hex.

Definition QUANTUM_SEED : Z := 0x7B2F9D1AE8C64F03.

(** [struct WalletVector]; [complexityFactor] is a [uint64_t] and
    [dimensionality] a [uint32_t]. *)
Record WalletVector := mkVector {
  primaryVector : list byte;
  secondaryVector : list byte;
  tertiaryVector : list byte;
  complexityFactor : Z;
  dimensionality : Z
}.

(** A [uint8_t] from the low eight bits of an integer. *)
Definition to_uint8 (v : Z) : byte :=
  match Byte.of_N (Z.to_N (v mod 256)) with
  | Some b => b
  | None => x00
  end.

(** The loop of [alignQuantumStates] from index [i] on, over the elements
    [sec] of [secondaryVector] that are left: [alignment] is a
    [uint64_t], and an element of [tertiaryVector] takes the low eight bits
    of [alignment & 0xFFf6F].  The caller sizes [tertiaryVector] longer
    than [secondaryVector]; a write beyond its end is left out. *)
Fixpoint align_loop (sec : list byte) (i : nat) (alignment : Z)
    (ter : list byte) : Z * list byte :=
  match sec with
  | [] => (alignment, ter)
  | b :: sec' =>
      let alignment' :=
        Z.lxor alignment ((byte_val b * QUANTUM_SEED) mod 2 ^ 64) in
      align_loop sec' (S i) alignment'
        (<[i := to_uint8 (Z.land alignment' 0xFFf6F)]> ter)
  end.

Definition alignQuantumStates (v : WalletVector) : bool * WalletVector :=
  let '(alignment, ter) :=
    align_loop (secondaryVector v) 0 0 (tertiaryVector v) in
  (negb (alignment =? 0),
   mkVector (primaryVector v) (secondaryVector v) ter (complexityFactor v)
     (dimensionality v)).

(** The loop of [finalizeQuantumState]: an element is promoted to [int],
    shifted by [i % 8] and folded into the [uint64_t] signature. *)
Fixpoint finalize_loop (ter : list byte) (i : nat) (quantum_signature : Z)
  : Z :=
  match ter with
  | [] => quantum_signature
  | b :: ter' =>
      finalize_loop ter' (S i)
        (Z.lxor quantum_signature
           (Z.shiftl (byte_val b) (Z.of_nat (i mod 8))) mod 2 ^ 64)
  end.

(** [finalizeQuantumState(vector, state)]; [state] is not read. *)
Definition finalizeQuantumState (v : WalletVector) : bool :=
  Z.land (finalize_loop (tertiaryVector v) 0 0) QUANTUM_SEED
  =? Z.land QUANTUM_SEED 0xFFFFFFFFF.

End Decryptor.

(* ===================================================================== *)
(** ** [class AdvancedDatabaseDecryptionProcessor_Experimental] *)
(* ===================================================================== *)

Module DbProcessor.
Import Env Metrics.

Definition DATABASE_PROCESSING_BLOCKS : nat := 0x1000.

(** [struct DatabaseProcessingContext]; the entries of
    [entropyDistributionMap] are the doubles 0.0 that [resize] puts there
    and are never read, so the vector is held by its size;
    [isLegacyFormat] has no value until it is assigned. *)
Record DatabaseProcessingContext := mkCtx {
  primaryTransformationVector : list byte;
  secondaryProcessingBuffer : list byte;
  entropyDistributionMap_size : nat;
  processingTimestamp : Z;
  isLegacyFormat : option bool
}.

Definition initializeProcessingContext (w : World)
    (ctx : DatabaseProcessingContext) (path : string) : bool :=
  fs_exists w path.

Definition processBerkeleyStructures (ctx : DatabaseProcessingContext)
    (key : string) : bool * DatabaseProcessingContext :=
  (true,
   mkCtx (primaryTransformationVector ctx) (secondaryProcessingBuffer ctx)
     (entropyDistributionMap_size ctx) (processingTimestamp ctx)
     (Some (Nat.eqb (String.length key mod 2) 0))).

Definition processSQLiteTransformation (ctx : DatabaseProcessingContext)
  : bool :=
  (0 <? List.length (primaryTransformationVector ctx))%nat.

Definition finalizeProcessing (ctx : DatabaseProcessingContext)
    (m : Counters) : bool * Counters :=
  (true, increment "database_processing_success" m).

(** [processAdvancedDatabaseDecryption] on the machine [w] at the time
    [now] ([std::time(nullptr)]), threading the counters; the pauses have
    no effect on the result.  [fs::exists] is taken to answer, as it is
    everywhere in [Env], and the allocations to succeed, so nothing is
    thrown inside the [try] block: its [catch (...)], which would add one
    to "database_processing_failures" and return [false], is not
    entered. *)
Definition processAdvancedDatabaseDecryption (w : World) (now : Z)
    (databasePath transformationKey : string) (m : Counters)
  : bool * Counters :=
  let m1 := increment "database_processing_attempts" m in
  let ctx :=
    mkCtx (repeat x00 DATABASE_PROCESSING_BLOCKS)
      (repeat x00 (DATABASE_PROCESSING_BLOCKS * 2)) 256 now None in
  if negb (initializeProcessingContext w ctx databasePath) then (false, m1)
  else
    let '(ok, ctx1) := processBerkeleyStructures ctx transformationKey in
    if negb ok then (false, m1)
    else if negb (processSQLiteTransformation ctx1) then (false, m1)
    else finalizeProcessing ctx1 m1.

End DbProcessor.

(* ===================================================================== *)
(** ** Further vocabulary *)
(* ===================================================================== *)

Module Vocab.
Import Tool.

(** The parser, started on [pre ++ rest], reads the head of [rest] as an
    option (not as the value of the last option of [pre]), unless a
    "--help" of [pre] has ended the parsing before. *)
Fixpoint reaches_option (pre : list string) : bool :=
  match pre with
  | [] => true
  | arg :: rest =>
      if String.eqb arg "--help" then true
      else if String.eqb arg "--wallet" || String.eqb arg "--type"
              || String.eqb arg "--KEY" then
        match rest with
        | [] => false
        | _ :: rest' => reaches_option rest'
        end
      else reaches_option rest
  end.

(** The option combinations [validateOptions] lets through. *)
Definition valid_options (t : WalletTool) : Prop :=
  walletPath t <> ""
  /\ ((dumpKeys t = true /\ dbType t = "" /\ hexKey t = ""
       /\ removePass t = false)
      \/ (dumpKeys t = false /\ removePass t = true
          /\ dbType t <> "" /\ hexKey t <> "")).

(** The destination of the copy for the home directory [home]. *)
Definition dest_of (home : string) : string :=
  Env.path_append (Env.path_append home "Desktop") "wallet.dat".

(** A machine like [Tool.sample_world] on which the Desktop directory does
    not exist yet. *)
Definition bare_world (data : list byte) : Env.World :=
  Env.mkWorld {["/w/wallet.dat" := data]} ∅ ∅ ∅ (Some "/home/u") None None
    (fun _ => []).

(** The body of a record line: 96 lowercase hexadecimal digits. *)
Definition is_record_hex (h : string) : Prop :=
  String.length h = 96%nat
  /\ forall c : ascii,
       In c (list_ascii_of_string h) -> Hex.is_lower_hex c = true.

(** The value of a lowercase hexadecimal digit. *)
Definition digit_val (c : ascii) : Z :=
  let n := Z.of_nat (nat_of_ascii c) in
  if n <? 97 then n - 48 else n - 87.

End Vocab.

(* ===================================================================== *)
(** ** Properties of the hex reporter *)
(* ===================================================================== *)

Module HexFacts.
Import Hex.

Lemma put_hex_byte (b : byte) :
  put_hex 2 "0" (Z.land (char_to_int b) 255) = two_digits b "".
Proof. destruct b; vm_compute; reflexivity. Qed.

Lemma str_app_cons (x : ascii) (a b : string) :
  String x a +:+ b = String x (a +:+ b).
Proof. reflexivity. Qed.

Lemma str_app_assoc (a b c : string) : (a +:+ b) +:+ c = a +:+ (b +:+ c).
Proof.
  induction a as [|x a IH]; [reflexivity|].
  rewrite !str_app_cons. f_equal. exact IH.
Qed.

Lemma str_app_nil_r (a : string) : a +:+ "" = a.
Proof.
  induction a as [|x a IH]; [reflexivity|].
  rewrite str_app_cons. f_equal. exact IH.
Qed.

Lemma tohex_loop_spec (ptr : list byte) :
  forall (n i : nat) (ss : string),
    (i + n <= List.length ptr)%nat ->
    tohex_loop ptr i n ss = ss +:+ hex_of_bytes (firstn n (skipn i ptr)).
Proof.
  induction n as [|n IH]; intros i ss Hb; simpl.
  - now rewrite str_app_nil_r.
  - rewrite IH by lia. rewrite put_hex_byte, str_app_assoc.
    f_equal.
    destruct (skipn i ptr) as [|b rest] eqn:E.
    + apply (f_equal (@List.length byte)) in E.
      rewrite length_skipn in E. simpl in E. lia.
    + assert (Hn : nth i ptr x00 = b).
      { rewrite <- (firstn_skipn i ptr) at 1.
        rewrite app_nth2; rewrite length_firstn; [|lia].
        replace (i - Nat.min i (List.length ptr))%nat with O by lia.
        now rewrite E. }
      assert (Hs : skipn (S i) ptr = rest).
      { replace (S i) with (1 + i)%nat by lia.
        rewrite <- skipn_skipn, E. reflexivity. }
      rewrite Hn, Hs. reflexivity.
Qed.

Lemma tohex_spec (buf : list byte) :
  tohex buf (Z.of_nat (List.length buf)) = hex_of_bytes buf.
Proof.
  unfold tohex. rewrite Nat2Z.id, tohex_loop_spec by (simpl; lia).
  simpl. now rewrite firstn_all.
Qed.

Lemma hex_digit_lower (d : Z) : is_lower_hex (hex_digit d) = true.
Proof.
  destruct d as [|p|p]; [reflexivity| |reflexivity].
  do 4 (try destruct p as [p|p|]); reflexivity.
Qed.

Lemma hex_of_bytes_length (l : list byte) :
  String.length (hex_of_bytes l) = (2 * List.length l)%nat.
Proof. induction l as [|b l IH]; simpl; [reflexivity | rewrite IH; lia]. Qed.

Lemma hex_of_bytes_lower (l : list byte) (c : ascii) :
  In c (list_ascii_of_string (hex_of_bytes l)) -> is_lower_hex c = true.
Proof.
  induction l as [|b l IH]; simpl; [tauto|].
  intros [<- | [<- | H]]; auto using hex_digit_lower.
Qed.

Lemma hex_of_bytes_get (l : list byte) :
  forall (i : nat) (b : byte),
    nth_error l i = Some b ->
    String.get (2 * i) (hex_of_bytes l) = Some (hex_digit (byte_val b / 16))
    /\ String.get (2 * i + 1) (hex_of_bytes l)
       = Some (hex_digit (byte_val b mod 16)).
Proof.
  induction l as [|a l IH]; intros [|i] b H; simpl in H; try discriminate.
  - injection H as ->. split; reflexivity.
  - destruct (IH i b H) as [H1 H2].
    replace (2 * S i)%nat with (S (S (2 * i))) by lia.
    replace (S (S (2 * i)) + 1)%nat with (S (S (2 * i + 1))) by lia.
    simpl hex_of_bytes. unfold two_digits. simpl String.get.
    split; assumption.
Qed.

(** C6: for a buffer of [L] bytes [tohex] returns [2 * L] characters, all of
    them lowercase hexadecimal digits, byte number [i] of the buffer being
    rendered at characters [2 * i] (most significant nibble) and [2 * i + 1]
    (least significant nibble), with a leading zero where the byte is below
    16; the byte 0x0A alone renders as the string 0a. *)
Theorem tohex_two_lowercase_digits_per_byte :
  forall buf : list byte,
    String.length (tohex buf (Z.of_nat (List.length buf)))
      = (2 * List.length buf)%nat
    /\ (forall c : ascii,
          In c (list_ascii_of_string
                  (tohex buf (Z.of_nat (List.length buf)))) ->
          is_lower_hex c = true)
    /\ (forall (i : nat) (b : byte),
          nth_error buf i = Some b ->
          String.get (2 * i) (tohex buf (Z.of_nat (List.length buf)))
            = Some (hex_digit (byte_val b / 16))
          /\ String.get (2 * i + 1) (tohex buf (Z.of_nat (List.length buf)))
             = Some (hex_digit (byte_val b mod 16)))
    /\ tohex [x0a] 1 = "0a".
Proof.
  intros buf. rewrite tohex_spec.
  split; [apply hex_of_bytes_length|].
  split; [apply hex_of_bytes_lower|].
  split; [apply hex_of_bytes_get | reflexivity].
Qed.

End HexFacts.

(* ===================================================================== *)
(** ** Properties of the record scanner *)
(* ===================================================================== *)

Module ScannerFacts.
Import Hex Stdio Scanner HexFacts.

Lemma bytes_eqb_eq (a b : list byte) : bytes_eqb a b = true <-> a = b.
Proof.
  revert b; induction a as [|x a IH]; intros [|y b]; simpl;
    try (split; [discriminate | congruence]); [tauto|].
  rewrite andb_true_iff, IH. split.
  - intros [H ->]. apply Byte.byte_dec_bl in H. congruence.
  - intros [= -> ->]. split; [apply Byte.byte_dec_lb|]; reflexivity.
Qed.

Ltac byte_case x y :=
  let E := fresh "E" in
  destruct (Byte.eqb x y) eqn:E;
  [apply Byte.byte_dec_bl in E; subst x; simpl | reflexivity].

(** On four bytes read from the file, [strncmp] against either tag is plain
    equality: no tag holds a NUL. *)
Lemma strncmp_mkey (buf : list byte) :
  List.length buf = 4%nat ->
  strncmp_eq buf tag_mkey 4 = bytes_eqb buf tag_mkey.
Proof.
  destruct buf as [|a [|b [|c [|d [|e r]]]]]; try discriminate. intros _.
  unfold tag_mkey; simpl.
  byte_case a x6d. byte_case b x6b. byte_case c x65. byte_case d x79.
  reflexivity.
Qed.

Lemma strncmp_ckey (buf : list byte) :
  List.length buf = 4%nat ->
  strncmp_eq buf tag_ckey 4 = bytes_eqb buf tag_ckey.
Proof.
  destruct buf as [|a [|b [|c [|d [|e r]]]]]; try discriminate. intros _.
  unfold tag_ckey; simpl.
  byte_case a x63. byte_case b x6b. byte_case c x65. byte_case d x79.
  reflexivity.
Qed.

Lemma tag_at_inside (data tag : list byte) (p : nat) :
  List.length tag = 4%nat -> tag_at data tag p = true ->
  (p + 4 <= List.length data)%nat.
Proof.
  unfold tag_at. intros Ht H. apply bytes_eqb_eq in H.
  apply (f_equal (@List.length byte)) in H.
  rewrite length_firstn, length_skipn in H. lia.
Qed.

Lemma filter_tag_at_short (data tag : list byte) (k m : nat) :
  List.length tag = 4%nat -> (List.length data < k + 4)%nat ->
  List.filter (tag_at data tag) (seq k m) = [].
Proof.
  intros Ht Hk. revert k Hk. induction m as [|m IH]; intros k Hk; simpl.
  - reflexivity.
  - destruct (tag_at data tag k) eqn:E.
    + apply tag_at_inside in E; [lia | exact Ht].
    + apply IH. lia.
Qed.

(** The loop condition at offset [k]. *)
Lemma fread_tag_inside (data : list byte) (k : nat) :
  (k + 4 <= List.length data)%nat ->
  fread 4 (mkFILE data k false)
  = (firstn 4 (skipn k data), mkFILE data (k + 4) false)
  /\ List.length (firstn 4 (skipn k data)) = 4%nat.
Proof.
  intros Hk. unfold fread; simpl.
  assert (L : List.length (firstn 4 (skipn k data)) = 4%nat)
    by (rewrite length_firstn, length_skipn; lia).
  rewrite L. split; reflexivity.
Qed.

Lemma fread_tag_short (data : list byte) (k : nat) :
  (List.length data < k + 4)%nat ->
  exists got w, fread 4 (mkFILE data k false) = (got, w)
    /\ (List.length got =? 4)%nat = false /\ contents w = data.
Proof.
  intros Hk. unfold fread; simpl. eexists _, _. split; [reflexivity|].
  split; [|reflexivity]. apply Nat.eqb_neq.
  rewrite length_firstn, length_skipn. lia.
Qed.

Lemma fread_contents (n : nat) (f : FILE) :
  contents (snd (fread n f)) = contents f.
Proof. unfold fread. destruct (eof_flag f); reflexivity. Qed.

Lemma fseek_contents (off : Z) (f : FILE) :
  contents (fseek_set off f) = contents f.
Proof. unfold fseek_set. destruct (off <? 0); reflexivity. Qed.

Lemma fseek_cursor (k : nat) (f : FILE) :
  fseek_set (Z.of_nat k + 1) f = mkFILE (contents f) (S k) false.
Proof.
  unfold fseek_set. destruct (Z.ltb_spec (Z.of_nat k + 1) 0); [lia|].
  f_equal. lia.
Qed.

Lemma mkey_loop_unfold (fuel : nat) (s : MState) :
  mkey_loop fuel s
  = let '(mkey, w) := fread 4 (m_wallet s) in
    if (List.length mkey =? 4)%nat && negb (feof w) && negb (found_mkey s)
    then
      match fuel with
      | O => None
      | S fuel' => mkey_loop fuel' (mkey_body mkey w s)
      end
    else Some (mkM w (m_i s) (found_mkey s) (mkey_data s) (m_cout s)).
Proof. destruct fuel; reflexivity. Qed.

Lemma ckey_loop_unfold (fuel : nat) (s : CState) :
  ckey_loop fuel s
  = let '(mkey, w) := fread 4 (c_wallet s) in
    if (List.length mkey =? 4)%nat && negb (feof w)
    then
      match fuel with
      | O => None
      | S fuel' => ckey_loop fuel' (ckey_body mkey w s)
      end
    else Some (mkC w (c_i s) (ckey_data s) (c_cout s)).
Proof. destruct fuel; reflexivity. Qed.

(** Once the master key is found the first loop reads four more bytes and
    stops: no further position is compared with the tag. *)
Lemma mkey_loop_found (fuel : nat) (s : MState) :
  found_mkey s = true ->
  mkey_loop fuel s
  = Some (mkM (snd (fread 4 (m_wallet s))) (m_i s) true (mkey_data s)
            (m_cout s)).
Proof.
  intros Hf. rewrite mkey_loop_unfold.
  destruct (fread 4 (m_wallet s)) as [mkey w]; rewrite Hf.
  rewrite !andb_false_r. reflexivity.
Qed.

Lemma mkey_body_match (data : list byte) (k : nat) (buf : list byte)
    (out : list string) :
  tag_at data tag_mkey k = true ->
  exists w,
    mkey_body (firstn 4 (skipn k data)) (mkFILE data (k + 4) false)
      (mkM (mkFILE data k false) (Z.of_nat k) false buf out)
    = mkM w (Z.of_nat k + 1) true (store buf (window_read data 72 48 k))
        (out ++ [mkey_line data buf k; ""])
    /\ contents w = data.
Proof.
  intros Ht. unfold mkey_body.
  rewrite strncmp_mkey
    by (apply tag_at_inside in Ht; [|reflexivity];
        rewrite length_firstn, length_skipn; lia).
  unfold tag_at in Ht. rewrite Ht. cbn [m_i mkey_data m_cout].
  unfold mkey_line, window_read.
  destruct (fread 48 (fseek_set (Z.of_nat k - 72) (mkFILE data (k + 4) false)))
    as [got w3] eqn:E.
  cbn [fst m_wallet m_i found_mkey mkey_data m_cout].
  eexists. split; [reflexivity|].
  rewrite fseek_contents.
  change w3 with (snd (got, w3)). rewrite <- E.
  rewrite fread_contents, fseek_contents. reflexivity.
Qed.

Lemma mkey_body_no_match (data : list byte) (k : nat) (buf : list byte)
    (out : list string) :
  (k + 4 <= List.length data)%nat ->
  tag_at data tag_mkey k = false ->
  mkey_body (firstn 4 (skipn k data)) (mkFILE data (k + 4) false)
    (mkM (mkFILE data k false) (Z.of_nat k) false buf out)
  = mkM (mkFILE data (S k) false) (Z.of_nat (S k)) false buf out.
Proof.
  intros Hk Ht. unfold mkey_body.
  rewrite strncmp_mkey by (rewrite length_firstn, length_skipn; lia).
  unfold tag_at in Ht. rewrite Ht.
  cbn [m_wallet m_i found_mkey mkey_data m_cout].
  rewrite fseek_cursor. cbn [contents]. f_equal. lia.
Qed.

(** The first loop, started at offset [k] with [m] bytes to go. *)
Lemma mkey_loop_spec (data : list byte) :
  forall (m fuel k : nat) (buf : list byte) (out : list string),
    (k + m = List.length data)%nat -> (m <= fuel)%nat ->
    exists w i,
      contents w = data
      /\ mkey_loop fuel (mkM (mkFILE data k false) (Z.of_nat k) false buf out)
         = Some
             match List.filter (tag_at data tag_mkey) (seq k m) with
             | [] => mkM w i false buf out
             | p :: _ =>
                 mkM w i true (store buf (window_read data 72 48 p))
                   (out ++ [mkey_line data buf p; ""])
             end.
Proof.
  induction m as [|m IH]; intros fuel k buf out Hk Hf.
  - destruct (fread_tag_short data k) as (got & w & E & L & C); [lia|].
    exists w, (Z.of_nat k). split; [exact C|].
    rewrite mkey_loop_unfold. cbn [m_wallet]. rewrite E, L. reflexivity.
  - destruct (le_lt_dec (k + 4) (List.length data)) as [Hin | Hout].
    + destruct (fread_tag_inside data k Hin) as [E L].
      destruct fuel as [|fuel]; [lia|].
      rewrite mkey_loop_unfold. cbn [m_wallet found_mkey]. rewrite E, L.
      cbn [feof eof_flag negb andb Nat.eqb].
      cbn [seq List.filter].
      destruct (tag_at data tag_mkey k) eqn:Ht.
      * destruct (mkey_body_match data k buf out Ht) as (w & -> & C).
        rewrite mkey_loop_found by reflexivity.
        cbn [m_wallet m_i mkey_data m_cout].
        exists (snd (fread 4 w)), (Z.of_nat k + 1).
        split; [rewrite fread_contents; exact C | reflexivity].
      * rewrite (mkey_body_no_match data k buf out Hin Ht).
        apply IH; lia.
    + destruct (fread_tag_short data k) as (got & w & E & L & C); [lia|].
      exists w, (Z.of_nat k). split; [exact C|].
      rewrite filter_tag_at_short by (reflexivity || lia).
      rewrite mkey_loop_unfold. cbn [m_wallet]. rewrite E, L. reflexivity.
Qed.

(** "ckey" has no border: an occurrence at [k] excludes occurrences at the
    three following offsets, the ones the second loop steps over. *)
Lemma ckey_no_overlap (data : list byte) (k : nat) :
  tag_at data tag_ckey k = true ->
  tag_at data tag_ckey (S k) = false
  /\ tag_at data tag_ckey (S (S k)) = false
  /\ tag_at data tag_ckey (S (S (S k))) = false.
Proof.
  unfold tag_at. intros H. apply bytes_eqb_eq in H.
  replace (skipn (S k) data) with (skipn 1 (skipn k data))
    by (rewrite skipn_skipn; f_equal; lia).
  replace (skipn (S (S k)) data) with (skipn 2 (skipn k data))
    by (rewrite skipn_skipn; f_equal; lia).
  replace (skipn (S (S (S k))) data) with (skipn 3 (skipn k data))
    by (rewrite skipn_skipn; f_equal; lia).
  destruct (skipn k data) as [|a [|b [|c [|d r]]]]; try discriminate.
  injection H as -> -> -> ->.
  repeat split; destruct r as [|r1 [|r2 [|r3 r]]]; reflexivity.
Qed.

Lemma ckey_body_match (data : list byte) (k : nat) (buf : list byte)
    (out : list string) :
  tag_at data tag_ckey k = true ->
  ckey_body (firstn 4 (skipn k data)) (mkFILE data (k + 4) false)
    (mkC (mkFILE data k false) (Z.of_nat k) buf out)
  = mkC (mkFILE data (k + 4) false) (Z.of_nat (k + 4))
      (store buf (window_read data 52 123 k))
      (out ++ ckey_lines data buf [k]).
Proof.
  intros Ht. unfold ckey_body.
  rewrite strncmp_ckey
    by (apply tag_at_inside in Ht; [|reflexivity];
        rewrite length_firstn, length_skipn; lia).
  unfold tag_at in Ht. rewrite Ht. cbn [c_i ckey_data c_cout].
  unfold ckey_lines, window_read.
  destruct (fread 123
              (fseek_set (Z.of_nat k - 52) (mkFILE data (k + 4) false)))
    as [got w3] eqn:E.
  cbn [fst c_wallet c_i ckey_data c_cout].
  replace (Z.of_nat k + 3 + 1) with (Z.of_nat (k + 3) + 1) by lia.
  rewrite fseek_cursor.
  change w3 with (snd (got, w3)). rewrite <- E.
  rewrite fread_contents, fseek_contents. cbn [contents].
  f_equal; [f_equal; lia | lia].
Qed.

Lemma ckey_body_no_match (data : list byte) (k : nat) (buf : list byte)
    (out : list string) :
  (k + 4 <= List.length data)%nat ->
  tag_at data tag_ckey k = false ->
  ckey_body (firstn 4 (skipn k data)) (mkFILE data (k + 4) false)
    (mkC (mkFILE data k false) (Z.of_nat k) buf out)
  = mkC (mkFILE data (S k) false) (Z.of_nat (S k)) buf out.
Proof.
  intros Hk Ht. unfold ckey_body.
  rewrite strncmp_ckey by (rewrite length_firstn, length_skipn; lia).
  unfold tag_at in Ht. rewrite Ht.
  cbn [c_wallet c_i ckey_data c_cout].
  rewrite fseek_cursor. cbn [contents]. f_equal. lia.
Qed.

(** The second loop, started at offset [k] with [m] bytes to go: one line
    per occurrence of "ckey" from [k] on, in ascending order. *)
Lemma ckey_loop_spec (data : list byte) :
  forall (fuel m k : nat) (buf : list byte) (out : list string),
    (k + m = List.length data)%nat -> (m <= fuel)%nat ->
    exists w i buf',
      contents w = data
      /\ ckey_loop fuel (mkC (mkFILE data k false) (Z.of_nat k) buf out)
         = Some
             (mkC w i buf'
                (out ++ ckey_lines data buf
                          (List.filter (tag_at data tag_ckey) (seq k m)))).
Proof.
  induction fuel as [|fuel IH]; intros m k buf out Hk Hf.
  - destruct (fread_tag_short data k) as (got & w & E & L & C); [lia|].
    exists w, (Z.of_nat k), buf. split; [exact C|].
    rewrite ckey_loop_unfold. cbn [c_wallet]. rewrite E, L.
    rewrite filter_tag_at_short by (reflexivity || lia).
    cbn [ckey_lines andb c_i ckey_data c_cout]. rewrite app_nil_r.
    reflexivity.
  - destruct (le_lt_dec (k + 4) (List.length data)) as [Hin | Hout].
    + destruct (fread_tag_inside data k Hin) as [E L].
      rewrite ckey_loop_unfold. cbn [c_wallet]. rewrite E, L.
      cbn [feof eof_flag negb andb Nat.eqb].
      destruct m as [|[|[|[|m]]]]; try lia.
      cbn [seq List.filter].
      destruct (tag_at data tag_ckey k) eqn:Ht.
      * destruct (ckey_no_overlap data k Ht) as (-> & -> & ->).
        rewrite (ckey_body_match data k buf out Ht).
        destruct (IH m (k + 4)%nat (store buf (window_read data 52 123 k))
                    (out ++ ckey_lines data buf [k]))
          as (w & i & buf' & C & ->); [lia | lia |].
        exists w, i, buf'. split; [exact C|].
        replace (S (S (S (S k)))) with (k + 4)%nat by lia.
        rewrite <- app_assoc. reflexivity.
      * rewrite (ckey_body_no_match data k buf out Hin Ht).
        destruct (IH (S (S (S m))) (S k) buf out)
          as (w & i & buf' & C & ->); [lia | lia |].
        exists w, i, buf'. split; [exact C | reflexivity].
    + destruct (fread_tag_short data k) as (got & w & E & L & C); [lia|].
      exists w, (Z.of_nat k), buf. split; [exact C|].
      rewrite ckey_loop_unfold. cbn [c_wallet]. rewrite E, L.
      rewrite filter_tag_at_short by (reflexivity || lia).
      cbn [ckey_lines andb c_i ckey_data c_cout]. rewrite app_nil_r.
      reflexivity.
Qed.

(** What [dumpAllKeys] writes, for every container and whatever the fresh
    buffers hold: the two loops end within their fuel. *)
Lemma scan_keys_spec (data junk_m junk_c : list byte) :
  scan_keys data junk_m junk_c
  = Some
      match occurrences tag_mkey data with
      | [] => ["There is no Master Key in the file"]
      | p :: _ =>
          [mkey_line data junk_m p; ""]
            ++ ckey_lines data junk_c (occurrences tag_ckey data)
      end.
Proof.
  unfold scan_keys, occurrences, fopen_rb.
  destruct (mkey_loop_spec data (List.length data) (S (List.length data)) 0
              junk_m [])
    as (w & i & C & E); [reflexivity | lia |].
  change (Z.of_nat 0) with 0 in E. rewrite E. clear E.
  destruct (List.filter (tag_at data tag_mkey) (seq 0 (List.length data)))
    as [|p ps]; cbn [found_mkey negb m_cout m_wallet app].
  - reflexivity.
  - assert (Hs : fseek_set 0 w = mkFILE data 0 false)
      by (unfold fseek_set; simpl; rewrite C; reflexivity).
    rewrite Hs.
    destruct (ckey_loop_spec data (S (List.length data)) (List.length data)
                0 junk_c [mkey_line data junk_m p; ""])
      as (w' & i' & buf' & C' & E); [reflexivity | lia |].
    change (Z.of_nat 0) with 0 in E. rewrite E. reflexivity.
Qed.

Lemma tohex_firstn (buf : list byte) (n : nat) :
  (n <= List.length buf)%nat ->
  tohex buf (Z.of_nat n) = hex_of_bytes (firstn n buf).
Proof.
  intros H. unfold tohex. rewrite Nat2Z.id, tohex_loop_spec by (simpl; lia).
  reflexivity.
Qed.

Lemma has_prefix_app (pre s : string) : has_prefix pre (pre +:+ s) = true.
Proof.
  unfold has_prefix. induction pre as [|c pre IH]; [destruct s; reflexivity|].
  rewrite str_app_cons. simpl. destruct (ascii_dec c c); [exact IH | tauto].
Qed.

Lemma ckey_lines_prefix (data : list byte) (ps : list nat) :
  forall buf : list byte,
    List.filter (has_prefix "encrypted ckey: ") (ckey_lines data buf ps)
    = ckey_lines data buf ps.
Proof.
  induction ps as [|p ps IH]; intros buf; [reflexivity|].
  cbn [ckey_lines List.filter]. rewrite has_prefix_app, IH. reflexivity.
Qed.

Lemma ckey_lines_no_mkey (data : list byte) (ps : list nat) :
  forall buf : list byte,
    List.filter (has_prefix "Mkey_encrypted: ") (ckey_lines data buf ps) = [].
Proof.
  induction ps as [|p ps IH]; intros buf; [reflexivity|].
  cbn [ckey_lines List.filter].
  replace (has_prefix "Mkey_encrypted: " _) with false by reflexivity.
  apply IH.
Qed.

(** C1, as the code has it: when "mkey" occurs nowhere in the container,
    [dumpAllKeys] writes the line "There is no Master Key in the file" and
    returns at once: the second loop does not run and no "encrypted ckey"
    line is written, however many "ckey" tags the container holds. *)
Theorem no_master_key_ends_the_dump :
  forall data junk_m junk_c : list byte,
    occurrences tag_mkey data = [] ->
    scan_keys data junk_m junk_c
    = Some ["There is no Master Key in the file"].
Proof.
  intros data jm jc H. rewrite scan_keys_spec, H. reflexivity.
Qed.

Lemma no_master_key_ends_the_dump_witness :
  occurrences tag_mkey ckey_only = []
  /\ scan_keys ckey_only (zeros 48) (zeros 123)
     = Some ["There is no Master Key in the file"].
Proof.
  split; [reflexivity|].
  apply (no_master_key_ends_the_dump ckey_only (zeros 48) (zeros 123)).
  reflexivity.
Defined.

(** C1 as stated fails: [ckey_only] holds no "mkey" and one "ckey" with its
    whole window, and the run writes no "encrypted ckey" line. *)
Lemma check_key_scan_skipped_without_master_key :
  ~ (occurrences tag_mkey ckey_only = [] ->
     exists out : list string,
       scan_keys ckey_only (zeros 48) (zeros 123) = Some out
       /\ In "There is no Master Key in the file" out
       /\ List.length (List.filter (has_prefix "encrypted ckey: ") out)
          = List.length (occurrences tag_ckey ckey_only)).
Proof.
  intros H. destruct (H eq_refl) as (out & E & _ & C).
  vm_compute in E. injection E as <-. vm_compute in C. discriminate.
Qed.

Lemma window_read_inside (data : list byte) (back n p : nat) :
  window_inside data back n p ->
  window_read data (Z.of_nat back) n p = firstn n (skipn (p - back) data)
  /\ List.length (firstn n (skipn (p - back) data)) = n.
Proof.
  intros [Hb Hn]. unfold window_read, fseek_set.
  destruct (Z.ltb_spec (Z.of_nat p - Z.of_nat back) 0); [lia|].
  unfold fread; cbn [eof_flag fpos contents fst].
  replace (Z.to_nat (Z.of_nat p - Z.of_nat back)) with (p - back)%nat by lia.
  split; [reflexivity|]. rewrite length_firstn, length_skipn. lia.
Qed.

Lemma window_read_before (data : list byte) (back n p : nat) :
  (p < back)%nat ->
  window_read data (Z.of_nat back) n p = firstn n (skipn (p + 4) data).
Proof.
  intros Hb. unfold window_read, fseek_set.
  destruct (Z.ltb_spec (Z.of_nat p - Z.of_nat back) 0); [|lia].
  reflexivity.
Qed.

Lemma window_read_length (data : list byte) (back : Z) (n p : nat) :
  (List.length (window_read data back n p) <= n)%nat.
Proof.
  unfold window_read, fread.
  destruct (eof_flag _); cbn [fst]; [simpl; lia|].
  rewrite length_firstn. lia.
Qed.

Lemma store_length (buf got : list byte) :
  (List.length got <= List.length buf)%nat ->
  List.length (store buf got) = List.length buf.
Proof. intros H. unfold store. rewrite length_app, length_skipn. lia. Qed.

Lemma store_firstn (buf got : list byte) (n : nat) :
  (n <= List.length got)%nat ->
  firstn n (store buf got) = firstn n got.
Proof.
  intros H. unfold store. rewrite firstn_app.
  replace (n - List.length got)%nat with O by lia.
  rewrite firstn_O, app_nil_r. reflexivity.
Qed.

(** The line of a master key whose window lies inside the container is the
    hex of the window, whatever the buffer held. *)
Lemma mkey_line_inside (data buf : list byte) (p : nat) :
  window_inside data 72 48 p ->
  mkey_line data buf p
  = "Mkey_encrypted: " +:+ hex_of_bytes (firstn 48 (skipn (p - 72) data)).
Proof.
  intros Hw. unfold mkey_line.
  destruct (window_read_inside data 72 48 p Hw) as [E L].
  change (Z.of_nat 72) with 72 in E. rewrite E.
  change 48 with (Z.of_nat 48). rewrite tohex_firstn.
  - rewrite store_firstn by lia. rewrite firstn_all2 by lia. reflexivity.
  - unfold store. rewrite length_app. lia.
Qed.

(** The head of a filtered interval is its least member. *)
Lemma filter_seq_head (f : nat -> bool) :
  forall (m k p : nat) (ps : list nat),
    List.filter f (seq k m) = p :: ps ->
    f p = true /\ forall j : nat, (k <= j < p)%nat -> f j = false.
Proof.
  induction m as [|m IH]; intros k p ps H; simpl in H; [discriminate|].
  destruct (f k) eqn:E.
  - injection H as <- _. split; [exact E | intros j Hj; lia].
  - destruct (IH _ _ _ H) as [Hp Hlt]. split; [exact Hp|].
    intros j Hj. destruct (Nat.eq_dec j k) as [-> | Hne]; [exact E|].
    apply Hlt. lia.
Qed.

(** C7: a run of [dumpAllKeys] writes at most one "Mkey_encrypted" line.
    When "mkey" occurs in the container, the line is the first line of the
    output, it belongs to the lowest offset [p] at which "mkey" occurs (the
    hex of the 48 bytes at [p - 72] when that window lies inside the
    container), and no later line is a "Mkey_encrypted" line.  Once the
    master key is found the first loop ends without comparing any further
    position with the tag: it leaves the cursor, the buffer and the output
    as they are. *)
Theorem only_first_master_key_reported :
  forall data junk_m junk_c : list byte,
    exists out : list string,
      scan_keys data junk_m junk_c = Some out
      /\ (count_lines "Mkey_encrypted: " out <= 1)%nat
      /\ (forall (p : nat) (ps : list nat),
            occurrences tag_mkey data = p :: ps ->
            tag_at data tag_mkey p = true
            /\ (forall j : nat, (j < p)%nat -> tag_at data tag_mkey j = false)
            /\ (exists rest : list string,
                  out = mkey_line data junk_m p :: "" :: rest
                  /\ count_lines "Mkey_encrypted: " rest = 0%nat)
            /\ (window_inside data 72 48 p ->
                mkey_line data junk_m p
                = "Mkey_encrypted: "
                    +:+ hex_of_bytes (firstn 48 (skipn (p - 72) data))))
      /\ (forall (fuel : nat) (s : MState),
            found_mkey s = true ->
            exists s' : MState,
              mkey_loop fuel s = Some s'
              /\ m_i s' = m_i s /\ mkey_data s' = mkey_data s
              /\ m_cout s' = m_cout s).
Proof.
  intros data jm jc. eexists. split; [apply scan_keys_spec|].
  split; [|split].
  - destruct (occurrences tag_mkey data) as [|p ps]; [vm_compute; lia|].
    unfold count_lines, mkey_line. cbn [app List.filter].
    rewrite (has_prefix_app "Mkey_encrypted: ").
    replace (has_prefix "Mkey_encrypted: " "") with false by reflexivity.
    rewrite ckey_lines_no_mkey. simpl. lia.
  - intros p ps H. rewrite H.
    destruct (filter_seq_head _ _ _ _ _ H) as [Hp Hlt].
    split; [exact Hp|]. split; [intros j Hj; apply Hlt; lia|].
    split; [|apply mkey_line_inside].
    eexists. split; [reflexivity|].
    unfold count_lines. rewrite ckey_lines_no_mkey. reflexivity.
  - intros fuel s Hf. eexists. split; [apply mkey_loop_found, Hf|].
    repeat split.
Qed.

(** C5: an iteration of the second loop at offset [k] moves the cursor by
    one byte, and by three more before that when the four bytes at [k] are
    "ckey"; the stream is left at the new cursor, so the next offset that
    is compared with the tag is [k + 1], or [k + 4] after a match. *)
Theorem ckey_scan_stride :
  forall (data : list byte) (k : nat) (buf : list byte) (out : list string)
         (fuel : nat),
    (k + 4 <= List.length data)%nat ->
    ckey_loop (S fuel) (mkC (mkFILE data k false) (Z.of_nat k) buf out)
    = ckey_loop fuel
        (ckey_body (firstn 4 (skipn k data)) (mkFILE data (k + 4) false)
           (mkC (mkFILE data k false) (Z.of_nat k) buf out))
    /\ c_i (ckey_body (firstn 4 (skipn k data)) (mkFILE data (k + 4) false)
              (mkC (mkFILE data k false) (Z.of_nat k) buf out))
       = Z.of_nat k + (if tag_at data tag_ckey k then 3 else 0) + 1
    /\ c_wallet
         (ckey_body (firstn 4 (skipn k data)) (mkFILE data (k + 4) false)
            (mkC (mkFILE data k false) (Z.of_nat k) buf out))
       = mkFILE data (if tag_at data tag_ckey k then k + 4 else k + 1) false.
Proof.
  intros data k buf out fuel Hk. split.
  - destruct (fread_tag_inside data k Hk) as [E L].
    rewrite ckey_loop_unfold. cbn [c_wallet]. rewrite E, L. reflexivity.
  - destruct (tag_at data tag_ckey k) eqn:Ht.
    + rewrite (ckey_body_match data k buf out Ht). cbn [c_i c_wallet].
      split; [lia | reflexivity].
    + rewrite (ckey_body_no_match data k buf out Hk Ht). cbn [c_i c_wallet].
      split; [lia | f_equal; lia].
Qed.

Lemma ckey_scan_stride_witness :
  (52 + 4 <= List.length ckey_only)%nat
  /\ c_i (ckey_body (firstn 4 (skipn 52 ckey_only))
            (mkFILE ckey_only (52 + 4) false)
            (mkC (mkFILE ckey_only 52 false) (Z.of_nat 52) (zeros 123) []))
     = 56.
Proof.
  split; [vm_compute; lia|].
  destruct (ckey_scan_stride ckey_only 52 (zeros 123) [] 0) as (_ & E & _).
  - vm_compute; lia.
  - rewrite E. reflexivity.
Defined.

Lemma occurrences_ascending (f : nat -> bool) (m : nat) :
  forall k : nat, StronglySorted lt (List.filter f (seq k m)).
Proof.
  induction m as [|m IH]; intros k; simpl; [constructor|].
  destruct (f k); [|apply IH].
  constructor; [apply IH|].
  apply List.Forall_forall. intros q Hq.
  apply filter_In in Hq. destruct Hq as [Hq _].
  apply in_seq in Hq. lia.
Qed.

(** The hex of a 48-byte record. *)
Lemma tohex_record (r : list byte) :
  List.length r = 48%nat -> tohex r 48 = hex_of_bytes r.
Proof.
  intros L. change 48 with (Z.of_nat 48). rewrite tohex_firstn by lia.
  rewrite firstn_all2 by lia. reflexivity.
Qed.

Lemma ckey_record_inside (data buf : list byte) (p : nat) :
  window_inside data 52 123 p ->
  firstn 48 (store buf (window_read data 52 123 p))
  = firstn 48 (skipn (p - 52) data)
  /\ List.length (firstn 48 (skipn (p - 52) data)) = 48%nat.
Proof.
  intros Hw. destruct (window_read_inside data 52 123 p Hw) as [E L].
  change (Z.of_nat 52) with 52 in E. rewrite E.
  rewrite store_firstn by lia.
  rewrite firstn_firstn. change (Nat.min 48 123) with 48%nat.
  split; [reflexivity|].
  rewrite length_firstn in L |- *. lia.
Qed.

(** With every window inside the container the lines of the second loop
    do not depend on what the buffer held. *)
Lemma ckey_lines_inside (data : list byte) (ps : list nat) :
  (forall p : nat, In p ps -> window_inside data 52 123 p) ->
  forall buf : list byte,
    ckey_lines data buf ps
    = map (fun p => "encrypted ckey: "
                      +:+ hex_of_bytes (firstn 48 (skipn (p - 52) data))) ps.
Proof.
  induction ps as [|p ps IH]; intros Hw buf; [reflexivity|].
  cbn [ckey_lines map].
  destruct (ckey_record_inside data buf p) as [E L];
    [apply Hw; left; reflexivity|].
  rewrite E, (tohex_record _ L). f_equal.
  apply IH. intros q Hq. apply Hw. right. exact Hq.
Qed.

(** C4, as the code has it: when "mkey" occurs in the container and each
    of the [N] occurrences of "ckey" has its 123-byte window at
    [position - 52] inside the container, [dumpAllKeys] writes exactly [N]
    "encrypted ckey" lines, in ascending order of offset, each the hex of
    the first 48 bytes of its window. *)
Theorem check_keys_reported_after_master_key :
  forall data junk_m junk_c : list byte,
    occurrences tag_mkey data <> [] ->
    (forall p : nat,
       In p (occurrences tag_ckey data) -> window_inside data 52 123 p) ->
    exists out : list string,
      scan_keys data junk_m junk_c = Some out
      /\ List.filter (has_prefix "encrypted ckey: ") out
         = map (fun p => "encrypted ckey: "
                 +:+ hex_of_bytes (firstn 48 (skipn (p - 52) data)))
             (occurrences tag_ckey data)
      /\ count_lines "encrypted ckey: " out
         = List.length (occurrences tag_ckey data)
      /\ StronglySorted lt (occurrences tag_ckey data).
Proof.
  intros data jm jc Hm Hw. eexists. split; [apply scan_keys_spec|].
  destruct (occurrences tag_mkey data) as [|p ps]; [congruence|].
  assert (F : List.filter (has_prefix "encrypted ckey: ")
                ([mkey_line data jm p; ""]
                   ++ ckey_lines data jc (occurrences tag_ckey data))
              = map (fun p => "encrypted ckey: "
                      +:+ hex_of_bytes (firstn 48 (skipn (p - 52) data)))
                  (occurrences tag_ckey data)).
  { cbn [app List.filter].
    replace (has_prefix "encrypted ckey: " (mkey_line data jm p))
      with false by reflexivity.
    replace (has_prefix "encrypted ckey: " "") with false by reflexivity.
    rewrite ckey_lines_prefix. apply ckey_lines_inside, Hw. }
  split; [exact F|]. split.
  - unfold count_lines. rewrite F, length_map. reflexivity.
  - apply occurrences_ascending.
Qed.

Lemma check_keys_reported_after_master_key_witness :
  occurrences tag_mkey mkey_then_ckey <> []
  /\ (forall p : nat,
        In p (occurrences tag_ckey mkey_then_ckey) ->
        window_inside mkey_then_ckey 52 123 p)
  /\ exists out : list string,
       scan_keys mkey_then_ckey (zeros 48) (zeros 123) = Some out
       /\ count_lines "encrypted ckey: " out = 1%nat.
Proof.
  assert (H1 : occurrences tag_mkey mkey_then_ckey <> [])
    by (vm_compute; discriminate).
  assert (H2 : forall p : nat,
             In p (occurrences tag_ckey mkey_then_ckey) ->
             window_inside mkey_then_ckey 52 123 p).
  { intros p Hp. vm_compute in Hp. destruct Hp as [<- | []].
    unfold window_inside. vm_compute. lia. }
  split; [exact H1|]. split; [exact H2|].
  destruct (check_keys_reported_after_master_key mkey_then_ckey
              (zeros 48) (zeros 123) H1 H2) as (out & E & _ & C & _).
  exists out. split; [exact E|]. rewrite C. reflexivity.
Defined.

(** C4 as stated fails: [two_ckeys] holds two "ckey" with their whole
    windows and no "mkey", and the run writes no "encrypted ckey" line. *)
Lemma check_keys_need_a_master_key :
  ~ ((forall p : nat,
        In p (occurrences tag_ckey two_ckeys) ->
        window_inside two_ckeys 52 123 p) ->
     exists out : list string,
       scan_keys two_ckeys (zeros 48) (zeros 123) = Some out
       /\ List.filter (has_prefix "encrypted ckey: ") out
          = map (fun p => "encrypted ckey: "
                  +:+ hex_of_bytes (firstn 48 (skipn (p - 52) two_ckeys)))
              (occurrences tag_ckey two_ckeys)).
Proof.
  intros H. destruct H as (out & E & C).
  - intros p Hp. vm_compute in Hp. destruct Hp as [<- | [<- | []]];
      unfold window_inside; vm_compute; lia.
  - vm_compute in E. injection E as <-. vm_compute in C. discriminate.
Qed.

(** One 48-byte record per match of the second loop, window or not. *)
Lemma ckey_lines_records (data : list byte) (ps : list nat) :
  forall buf : list byte,
    List.length buf = 123%nat ->
    exists crecs : list (list byte),
      ckey_lines data buf ps
      = map (fun r => "encrypted ckey: " +:+ hex_of_bytes r) crecs
      /\ Forall2
           (fun (q : nat) (r : list byte) =>
              List.length r = 48%nat
              /\ (window_inside data 52 123 q ->
                  r = firstn 48 (skipn (q - 52) data)))
           ps crecs.
Proof.
  induction ps as [|p ps IH]; intros buf Hb.
  - exists []. split; [reflexivity | constructor].
  - pose proof (window_read_length data 52 123 p) as Hr.
    assert (Hs : List.length (store buf (window_read data 52 123 p))
                 = 123%nat) by (rewrite store_length; lia).
    destruct (IH _ Hs) as (crecs & E & F).
    exists (firstn 48 (store buf (window_read data 52 123 p)) :: crecs).
    assert (L : List.length (firstn 48 (store buf (window_read data 52 123 p)))
                = 48%nat) by (rewrite length_firstn; lia).
    split.
    + cbn [ckey_lines map]. rewrite E, (tohex_record _ L). reflexivity.
    + constructor; [|exact F]. split; [exact L|].
      intros Hw. apply ckey_record_inside, Hw.
Qed.

(** C2, as the code has it: no window is checked.  When "mkey" occurs in
    the container (first at [p]) and the fresh buffers have their 48 and
    123 bytes, [dumpAllKeys] writes one "Mkey_encrypted" line for [p] and
    one "encrypted ckey" line for every occurrence of "ckey", each line
    rendering a record of 48 bytes, whether or not the window of the match
    lies inside the container.  A record is the first 48 bytes of its
    window when the window lies inside the container.  For "mkey" at an
    offset below 72 the seek is refused and the record is what a read of
    48 bytes at [p + 4] delivers, followed by what the buffer held. *)
Theorem record_written_at_every_match :
  forall (data junk_m junk_c : list byte) (p : nat) (ps : list nat),
    List.length junk_m = 48%nat ->
    List.length junk_c = 123%nat ->
    occurrences tag_mkey data = p :: ps ->
    exists (rec : list byte) (crecs : list (list byte)),
      scan_keys data junk_m junk_c
      = Some (("Mkey_encrypted: " +:+ hex_of_bytes rec) :: ""
                :: map (fun r => "encrypted ckey: " +:+ hex_of_bytes r) crecs)
      /\ List.length rec = 48%nat
      /\ (window_inside data 72 48 p ->
          rec = firstn 48 (skipn (p - 72) data))
      /\ (~ window_inside data 72 48 p ->
          rec = store junk_m (firstn 48 (skipn (p + 4) data)))
      /\ Forall2
           (fun (q : nat) (r : list byte) =>
              List.length r = 48%nat
              /\ (window_inside data 52 123 q ->
                  r = firstn 48 (skipn (q - 52) data)))
           (occurrences tag_ckey data) crecs.
Proof.
  intros data jm jc p ps Hm Hc Ho.
  destruct (ckey_lines_records data (occurrences tag_ckey data) jc Hc)
    as (crecs & E & F).
  pose proof (window_read_length data 72 48 p) as Hr.
  assert (L : List.length (store jm (window_read data 72 48 p)) = 48%nat)
    by (rewrite store_length; lia).
  exists (store jm (window_read data 72 48 p)), crecs.
  split; [|split; [exact L | split; [|split; [|exact F]]]].
  - rewrite scan_keys_spec, Ho, E. unfold mkey_line.
    rewrite (tohex_record _ L). reflexivity.
  - intros Hw. destruct (window_read_inside data 72 48 p Hw) as [E' L'].
    change (Z.of_nat 72) with 72 in E'. rewrite E'.
    unfold store. rewrite L'.
    replace (skipn 48 jm) with (@nil byte)
      by (symmetry; apply skipn_all2; lia).
    apply app_nil_r.
  - intros Hw. f_equal.
    change 72 with (Z.of_nat 72). apply window_read_before.
    destruct (filter_seq_head _ _ _ _ _ Ho) as [Hp _].
    apply tag_at_inside in Hp; [|reflexivity].
    unfold window_inside in Hw. lia.
Qed.

Lemma record_written_at_every_match_witness :
  List.length (repeat xaa 48) = 48%nat
  /\ List.length (zeros 123) = 123%nat
  /\ occurrences tag_mkey (tag_mkey ++ tag_ckey) = [0%nat]
  /\ exists (rec : list byte) (crecs : list (list byte)),
       scan_keys (tag_mkey ++ tag_ckey) (repeat xaa 48) (zeros 123)
       = Some (("Mkey_encrypted: " +:+ hex_of_bytes rec) :: ""
                 :: map (fun r => "encrypted ckey: " +:+ hex_of_bytes r)
                      crecs)
       /\ rec = tag_ckey ++ repeat xaa 44.
Proof.
  split; [reflexivity|]. split; [reflexivity|]. split; [reflexivity|].
  destruct (record_written_at_every_match (tag_mkey ++ tag_ckey)
              (repeat xaa 48) (zeros 123) 0 [])
    as (rec & crecs & E & _ & _ & R & _);
    [reflexivity | reflexivity | reflexivity |].
  exists rec, crecs. split; [exact E|].
  rewrite R; [reflexivity|]. unfold window_inside. lia.
Defined.

(** C2 as stated fails: in the four-byte container [mkey_only] the tag is
    matched at offset 0, the window at [0 - 72] does not exist, and a
    "Mkey_encrypted" line is written all the same (here it renders the 48
    bytes the fresh buffer held). *)
Lemma record_written_without_window :
  ~ (forall p : nat,
       tag_at mkey_only tag_mkey p = true ->
       ~ window_inside mkey_only 72 48 p ->
       forall out : list string,
         scan_keys mkey_only (repeat xaa 48) (zeros 123) = Some out ->
         count_lines "Mkey_encrypted: " out = 0%nat).
Proof.
  intros H.
  assert (Hw : ~ window_inside mkey_only 72 48 0)
    by (unfold window_inside; lia).
  specialize (H 0%nat eq_refl Hw _
                (scan_keys_spec mkey_only (repeat xaa 48) (zeros 123))).
  vm_compute in H. discriminate.
Qed.

End ScannerFacts.

(* ===================================================================== *)
(** ** Properties of the argument parser, the copy and [main] *)
(* ===================================================================== *)

Module ToolFacts.
Import Hex Stdio Scanner Env Exn Tool HexFacts ScannerFacts.
Local Open Scope exn_scope.

Lemma is_hex_char_alphabet (c : ascii) :
  is_hex_char c = true <-> In c hex_alphabet.
Proof.
  assert (E : is_hex_char c = existsb (Ascii.eqb c) hex_alphabet)
    by (destruct c as [[] [] [] [] [] [] [] []]; reflexivity).
  rewrite E, existsb_exists. split.
  - intros (x & Hx & Hc). apply Ascii.eqb_eq in Hc. subst x. exact Hx.
  - intros H. exists c. split; [exact H | apply Ascii.eqb_refl].
Qed.

Lemma isValidHexString_spec (k : string) :
  isValidHexString k = true
  <-> String.length k = 10%nat
      /\ forall c : ascii, In c (list_ascii_of_string k) -> In c hex_alphabet.
Proof.
  unfold isValidHexString.
  destruct (Nat.eqb_spec (String.length k) 10) as [L | L]; cbn [negb].
  - rewrite forallb_forall. split.
    + intros H. split; [exact L|].
      intros c Hc. apply is_hex_char_alphabet, H, Hc.
    + intros [_ H] c Hc. apply is_hex_char_alphabet, H, Hc.
  - split; [discriminate | intros [H _]; contradiction].
Qed.

Lemma parse_loop_cons (arg : string) (rest : list string) (t : WalletTool) :
  parse_loop (arg :: rest) t
  = if String.eqb arg "--help" then (showHelp ;; ret t)
    else if String.eqb arg "--wallet" then
      match rest with
      | [] => throw "Wallet path not specified"
      | v :: rest' =>
          parse_loop rest'
            (mkTool v (dbType t) (hexKey t) (removePass t) (dumpKeys t))
      end
    else if String.eqb arg "--type" then
      match rest with
      | [] => throw "Database type not specified"
      | v :: rest' =>
          if negb (String.eqb v "BerkelyDB") && negb (String.eqb v "SQLite")
          then throw "Invalid database type. Must be 'BerkelyDB' or 'SQLite'"
          else
            parse_loop rest'
              (mkTool (walletPath t) v (hexKey t) (removePass t)
                 (dumpKeys t))
      end
    else if String.eqb arg "--KEY" then
      match rest with
      | [] => throw "KEY not specified"
      | v :: rest' =>
          if negb (isValidHexString v)
          then throw "Invalid KEY format. Must be a 5-byte hexadecimal string"
          else
            parse_loop rest'
              (mkTool (walletPath t) (dbType t) v (removePass t)
                 (dumpKeys t))
      end
    else if String.eqb arg "--remove-pass" then
      parse_loop rest
        (mkTool (walletPath t) (dbType t) (hexKey t) true (dumpKeys t))
    else if String.eqb arg "--dump-all-keys" then
      parse_loop rest
        (mkTool (walletPath t) (dbType t) (hexKey t) (removePass t) true)
    else throw ("Unknown option: " +:+ arg).
Proof. reflexivity. Qed.

(** [validateOptions] returns or throws, and touches nothing. *)
Lemma validateOptions_pure (t : WalletTool) (st : Proc) :
  validateOptions t st = (Ret tt, st)
  \/ exists e : string, validateOptions t st = (Throw e, st).
Proof.
  unfold validateOptions, throw, ret.
  destruct (empty (walletPath t)); [right; eauto|].
  destruct (dumpKeys t), (removePass t), (empty (dbType t)),
    (empty (hexKey t)); cbn; eauto.
Qed.

(** The parser ends; when it throws it has written nothing, and it never
    touches the machine. *)
Lemma parse_loop_outcome :
  forall (n : nat) (args : list string) (t : WalletTool) (st : Proc),
    (List.length args <= n)%nat ->
    (exists (t' : WalletTool) (st' : Proc),
       parse_loop args t st = (Ret t', st') /\ world st' = world st)
    \/ exists e : string, parse_loop args t st = (Throw e, st).
Proof.
  induction n as [|n IH]; intros args t st Hn.
  - destruct args; [|simpl in Hn; lia]. cbn [parse_loop]. unfold bind.
    destruct (validateOptions_pure t st) as [-> | [e ->]];
      [left; unfold ret; eauto | right; eauto].
  - destruct args as [|arg rest].
    { cbn [parse_loop]. unfold bind.
      destruct (validateOptions_pure t st) as [-> | [e ->]];
        [left; unfold ret; eauto | right; eauto]. }
    rewrite parse_loop_cons. simpl in Hn.
    destruct (String.eqb arg "--help");
      [left; unfold bind, showHelp, print, ret; cbn; eauto|].
    destruct (String.eqb arg "--wallet").
    { destruct rest as [|v rest']; [right; unfold throw; eauto|].
      apply IH. simpl in Hn. lia. }
    destruct (String.eqb arg "--type").
    { destruct rest as [|v rest']; [right; unfold throw; eauto|].
      destruct (negb (String.eqb v "BerkelyDB") && negb (String.eqb v "SQLite"));
        [right; unfold throw; eauto|].
      apply IH. simpl in Hn. lia. }
    destruct (String.eqb arg "--KEY").
    { destruct rest as [|v rest']; [right; unfold throw; eauto|].
      destruct (negb (isValidHexString v)); [right; unfold throw; eauto|].
      apply IH. simpl in Hn. lia. }
    destruct (String.eqb arg "--remove-pass"); [apply IH; lia|].
    destruct (String.eqb arg "--dump-all-keys"); [apply IH; lia|].
    right; unfold throw; eauto.
Qed.

Lemma parseArgs_outcome (argv : list string) (t : WalletTool) (st : Proc) :
  (exists (t' : WalletTool) (st' : Proc),
     parseArgs argv t st = (Ret t', st') /\ world st' = world st)
  \/ exists e : string, parseArgs argv t st = (Throw e, st).
Proof.
  unfold parseArgs. destruct (List.length argv =? 1)%nat.
  - right. unfold throw. eauto.
  - apply (parse_loop_outcome (List.length (tl argv))). lia.
Qed.

(** The parser reads through a prefix that [passes] and goes on with the
    rest of the arguments; the prefix has only set fields of the tool. *)
Lemma parse_passes :
  forall (n : nat) (pre rest : list string) (t : WalletTool),
    (List.length pre <= n)%nat ->
    passes pre = true ->
    exists t' : WalletTool, parse_loop (pre ++ rest) t = parse_loop rest t'.
Proof.
  induction n as [|n IH]; intros pre rest t Hn Hp.
  - destruct pre; [|simpl in Hn; lia]. exists t. reflexivity.
  - destruct pre as [|arg pre']; [exists t; reflexivity|].
    rewrite <- app_comm_cons, parse_loop_cons.
    cbn [passes] in Hp. simpl in Hn.
    destruct (String.eqb arg "--help") eqn:Eh.
    { apply String.eqb_eq in Eh. subst arg. discriminate Hp. }
    destruct (String.eqb arg "--wallet").
    { destruct pre' as [|v pre'']; [discriminate Hp|].
      rewrite <- app_comm_cons. apply IH; [simpl in Hn; lia | exact Hp]. }
    destruct (String.eqb arg "--type").
    { destruct pre' as [|v pre'']; [discriminate Hp|].
      apply andb_true_iff in Hp. destruct Hp as [Hv Hp].
      rewrite <- app_comm_cons.
      destruct (String.eqb v "BerkelyDB"), (String.eqb v "SQLite");
        try discriminate Hv; cbn [negb andb];
        (apply IH; [simpl in Hn; lia | exact Hp]). }
    destruct (String.eqb arg "--KEY").
    { destruct pre' as [|v pre'']; [discriminate Hp|].
      apply andb_true_iff in Hp. destruct Hp as [Hv Hp].
      rewrite <- app_comm_cons. rewrite Hv. cbn [negb].
      apply IH; [simpl in Hn; lia | exact Hp]. }
    destruct (String.eqb arg "--remove-pass");
      [apply IH; [lia | exact Hp]|].
    destruct (String.eqb arg "--dump-all-keys");
      [apply IH; [lia | exact Hp]|].
    discriminate Hp.
Qed.

(** [parseArgs] on a command line with at least one argument after the
    program name. *)
Lemma parseArgs_options (prog arg : string) (args : list string)
    (t : WalletTool) :
  parseArgs (prog :: arg :: args) t = parse_loop (arg :: args) t.
Proof. reflexivity. Qed.

(** Up to a "--help" the parser either throws, with nothing written, or
    comes to the rest of the arguments. *)
Lemma parse_before_help :
  forall (n : nat) (pre rest : list string) (t : WalletTool) (st : Proc),
    (List.length pre <= n)%nat ->
    before_help pre = true ->
    (exists e : string, parse_loop (pre ++ rest) t st = (Throw e, st))
    \/ exists t' : WalletTool,
         parse_loop (pre ++ rest) t st = parse_loop rest t' st.
Proof.
  induction n as [|n IH]; intros pre rest t st Hn Hp.
  - destruct pre; [|simpl in Hn; lia]. right. exists t. reflexivity.
  - destruct pre as [|arg pre']; [right; exists t; reflexivity|].
    rewrite <- app_comm_cons, parse_loop_cons.
    cbn [before_help] in Hp. simpl in Hn.
    destruct (String.eqb arg "--help"); [discriminate Hp|].
    destruct (String.eqb arg "--wallet").
    { cbn [orb] in Hp. destruct pre' as [|v pre'']; [discriminate Hp|].
      rewrite <- app_comm_cons. apply IH; [simpl in Hn; lia | exact Hp]. }
    destruct (String.eqb arg "--type").
    { cbn [orb] in Hp. destruct pre' as [|v pre'']; [discriminate Hp|].
      rewrite <- app_comm_cons.
      destruct (negb (String.eqb v "BerkelyDB")
                && negb (String.eqb v "SQLite"));
        [left; unfold throw; eauto|].
      apply IH; [simpl in Hn; lia | exact Hp]. }
    destruct (String.eqb arg "--KEY").
    { cbn [orb] in Hp. destruct pre' as [|v pre'']; [discriminate Hp|].
      rewrite <- app_comm_cons.
      destruct (negb (isValidHexString v)); [left; unfold throw; eauto|].
      apply IH; [simpl in Hn; lia | exact Hp]. }
    cbn [orb] in Hp.
    destruct (String.eqb arg "--remove-pass");
      [apply IH; [lia | exact Hp]|].
    destruct (String.eqb arg "--dump-all-keys");
      [apply IH; [lia | exact Hp]|].
    left. unfold throw. eauto.
Qed.

(** The command line [prog :: pre ++ "--KEY" :: k :: rest], for a prefix
    that [passes], brings the parser to the "--KEY" option. *)
Lemma parseArgs_reaches_key (prog k : string) (pre rest : list string) :
  passes pre = true ->
  exists t : WalletTool,
    parseArgs (prog :: pre ++ "--KEY" :: k :: rest) new_tool
    = parse_loop ("--KEY" :: k :: rest) t.
Proof.
  intros Hp.
  destruct (parse_passes (List.length pre) pre ("--KEY" :: k :: rest)
              new_tool (le_n _) Hp) as [t E].
  exists t. rewrite <- E.
  destruct pre as [|arg pre']; reflexivity.
Qed.

(** The parser at a "--KEY" option whose value it refuses. *)
Lemma parse_refused_key (k : string) (rest : list string) (t : WalletTool)
    (st : Proc) :
  isValidHexString k = false ->
  parse_loop ("--KEY" :: k :: rest) t st
  = (Throw "Invalid KEY format. Must be a 5-byte hexadecimal string", st).
Proof.
  intros V. rewrite parse_loop_cons. cbn [String.eqb Ascii.eqb Bool.eqb].
  rewrite V. reflexivity.
Qed.

(** A run whose parser throws. *)
Lemma main_parse_error (argv : list string) (w : World) (e : string) :
  parseArgs argv new_tool (mkProc w []) = (Throw e, mkProc w []) ->
  main argv w = mkRun (Some 1) w [] ["Error: " +:+ e].
Proof.
  intros E. unfold main, main_body. unfold bind at 1. rewrite E.
  reflexivity.
Qed.

(** The run of [key_behind_help] on a one-byte wallet: the help text is
    printed, the "--KEY" behind it is not looked at, and the copy is
    made. *)
Lemma key_behind_help_run :
  isValidHexString "zz" = false
  /\ exit_code (main key_behind_help (sample_world [x2a])) = Some 0
  /\ stderr (main key_behind_help (sample_world [x2a])) = []
  /\ files (final_world (main key_behind_help (sample_world [x2a])))
       !! "/home/u/Desktop/wallet.dat"
     = Some [x2a]
  /\ last (stdout (main key_behind_help (sample_world [x2a])))
     = Some "The new wallet.dat file with the password removed was saved to: /home/u/Desktop/wallet.dat".
Proof. repeat split; vm_compute; reflexivity. Qed.

(** C10 as stated fails: on [key_behind_help] the value of "--KEY" is not
    a string of ten hexadecimal digits, yet the parser does not fail: it
    returns at "--help", and the run goes on to copy the wallet
    ([key_behind_help_run]). *)
Lemma refused_key_behind_help_is_copied :
  ~ (~ ten_hex_digits "zz" ->
     exists (e : string) (st : Proc),
       parseArgs key_behind_help new_tool (mkProc (sample_world [x2a]) [])
       = (Throw e, st)).
Proof.
  intros H.
  assert (N : ~ ten_hex_digits "zz") by (intros [L _]; discriminate L).
  destruct (H N) as (e & st & E).
  vm_compute in E. discriminate E.
Qed.

(** C10: the value of "--KEY" is accepted exactly when it has 10 characters,
    all of them among 0-9, a-f and A-F: uppercase digits pass, a value with
    the prefix 0x or of another length does not.  On any other value, in a
    "--KEY" option that no "--help" precedes, argument parsing fails: the
    run ends with exit code 1 and one "Error: " line on [stderr], with
    nothing printed and the machine as it was, so that no scan and no copy
    has begun; when the parser reads through the arguments before the
    option, the line is "Error: Invalid KEY format. Must be a 5-byte
    hexadecimal string", and an accepted value is stored in [hexKey], the
    parser going on with the next argument. *)
Theorem refused_key_ends_the_run :
  forall (prog k : string) (pre rest : list string) (w : World),
    before_help pre = true ->
    (isValidHexString k = true <-> ten_hex_digits k)
    /\ (~ ten_hex_digits k ->
        exists e : string,
          main (prog :: pre ++ "--KEY" :: k :: rest) w
          = mkRun (Some 1) w [] ["Error: " +:+ e])
    /\ (~ ten_hex_digits k -> passes pre = true ->
        main (prog :: pre ++ "--KEY" :: k :: rest) w
        = mkRun (Some 1) w []
            ["Error: Invalid KEY format. Must be a 5-byte hexadecimal string"])
    /\ (ten_hex_digits k -> passes pre = true ->
        exists t : WalletTool,
          hexKey t = k
          /\ parseArgs (prog :: pre ++ "--KEY" :: k :: rest) new_tool
             = parse_loop rest t)
    /\ isValidHexString "ABCDEF0123" = true
    /\ isValidHexString "0x12345678" = false
    /\ isValidHexString "012345678" = false.
Proof.
  intros prog k pre rest w Hb.
  assert (R : ~ ten_hex_digits k -> isValidHexString k = false).
  { intros Hk. destruct (isValidHexString k) eqn:V; [|reflexivity].
    exfalso. apply Hk, isValidHexString_spec, V. }
  split; [apply isValidHexString_spec|].
  split; [|split; [|split; [|repeat split]]].
  - intros Hk. apply R in Hk.
    assert (P : parseArgs (prog :: pre ++ "--KEY" :: k :: rest) new_tool
                  (mkProc w [])
                = parse_loop (pre ++ "--KEY" :: k :: rest) new_tool
                    (mkProc w []))
      by (destruct pre; reflexivity).
    destruct (parse_before_help (List.length pre) pre ("--KEY" :: k :: rest)
                new_tool (mkProc w []) (le_n _) Hb) as [[e E] | [t E]].
    + exists e. apply main_parse_error. rewrite P. exact E.
    + eexists. apply main_parse_error. rewrite P, E.
      apply parse_refused_key, Hk.
  - intros Hk Hp. apply R in Hk.
    destruct (parseArgs_reaches_key prog k pre rest Hp) as [t E].
    apply main_parse_error. rewrite E. apply parse_refused_key, Hk.
  - intros Hk Hp. apply isValidHexString_spec in Hk.
    destruct (parseArgs_reaches_key prog k pre rest Hp) as [t E].
    exists (mkTool (walletPath t) (dbType t) k (removePass t) (dumpKeys t)).
    split; [reflexivity|].
    rewrite E, parse_loop_cons. cbn [String.eqb Ascii.eqb Bool.eqb].
    rewrite Hk. reflexivity.
Qed.

Lemma refused_key_ends_the_run_witness :
  before_help ["--wallet"; "/w/wallet.dat"; "--type"; "SQLite"] = true
  /\ passes ["--wallet"; "/w/wallet.dat"; "--type"; "SQLite"] = true
  /\ ~ ten_hex_digits "0x12345678"
  /\ main ["wallet-tool"; "--wallet"; "/w/wallet.dat"; "--type"; "SQLite";
           "--KEY"; "0x12345678"; "--remove-pass"] (sample_world [x2a])
     = mkRun (Some 1) (sample_world [x2a]) []
         ["Error: Invalid KEY format. Must be a 5-byte hexadecimal string"].
Proof.
  assert (H : before_help ["--wallet"; "/w/wallet.dat"; "--type"; "SQLite"]
              = true) by reflexivity.
  assert (P : passes ["--wallet"; "/w/wallet.dat"; "--type"; "SQLite"] = true)
    by reflexivity.
  assert (N : ~ ten_hex_digits "0x12345678").
  { intros T. apply isValidHexString_spec in T. discriminate T. }
  split; [exact H|]. split; [exact P|]. split; [exact N|].
  exact (proj1 (proj2 (proj2 (refused_key_ends_the_run "wallet-tool"
                                "0x12345678"
                                ["--wallet"; "/w/wallet.dat"; "--type";
                                 "SQLite"]
                                ["--remove-pass"] (sample_world [x2a]) H)))
           N P).
Defined.

Lemma getDesktopPath_eq (st : Proc) (home : string) :
  env_HOME (world st) = Some home ->
  getDesktopPath st = (Ret (path_append home "Desktop"), st).
Proof.
  intros H. unfold getDesktopPath, bind, get_world. rewrite H. reflexivity.
Qed.

(** The [try] block once both streams are open. *)
Lemma copy_wallet_opened (src desk dest : string) (w : World)
    (out : list string) :
  open_read w src = true ->
  open_write w desk dest = true ->
  copy_wallet src desk dest (mkProc w out)
  = match limit (write_limit w) (<[dest := []]> (files w) !!! src) with
    | [] =>
        (Throw "Error occurred while writing destination file",
         mkProc
           (set_files
              (<[dest := limit (flush_limit w) []]> (<[dest := []]> (files w)))
              w) out)
    | b :: data =>
        (Ret tt,
         mkProc
           (set_files
              (<[dest := limit (flush_limit w) (b :: data)]>
                 (<[dest := []]> (files w))) w)
           (out ++ ["The new wallet.dat file with the password removed was saved to: "
                      +:+ dest]))
    end.
Proof.
  intros Hr Hw. unfold copy_wallet, bind, get_world. cbn [world].
  rewrite Hr, Hw. cbn [negb]. unfold put_world, throw, print.
  cbn [set_files files dirs unreadable unwritable env_HOME write_limit
       flush_limit heap_junk world cout].
  destruct (limit (write_limit w) (<[dest:=[]]> (files w) !!! src));
    reflexivity.
Qed.

Lemma limit_nil (o : option nat) : limit o [] = [].
Proof. destruct o as [n|]; [destruct n|]; reflexivity. Qed.

Lemma limit_none (l : list byte) : limit None l = l.
Proof. reflexivity. Qed.

Lemma limit_firstn (o : option nat) (l : list byte) :
  exists n : nat, limit o l = firstn n l.
Proof.
  destruct o as [n|]; [exists n; reflexivity|].
  exists (List.length l). symmetry. apply firstn_all.
Qed.

Lemma limit_cons (o : option nat) (b : byte) (l : list byte) :
  o <> Some 0%nat -> exists l', limit o (b :: l) = b :: l'.
Proof.
  intros H. destruct o as [[|n]|]; [congruence| |]; cbn; eauto.
Qed.

(** [removePassword] up to its [try] block, on a machine where the source
    exists and the Desktop directory is there. *)
Lemma removePassword_ready (t : WalletTool) (w : World) (out : list string)
    (home : string) :
  fs_exists w (walletPath t) = true ->
  env_HOME w = Some home ->
  path_append home "Desktop" ∈ dirs w ->
  removePassword t (mkProc w out)
  = try_catch
      (copy_wallet (walletPath t) (path_append home "Desktop")
         (path_append (path_append home "Desktop") "wallet.dat"))
      (fun what => throw ("Failed to process wallet file: " +:+ what))
      (mkProc w out).
Proof.
  intros He Hh Hd. unfold removePassword.
  unfold bind at 1. unfold get_world at 1. cbn [world].
  rewrite He. cbn [negb].
  unfold bind at 1. rewrite (getDesktopPath_eq _ home) by exact Hh.
  unfold bind at 1. unfold get_world at 1. cbn [world].
  unfold bind at 1.
  assert (E : fs_exists w (path_append home "Desktop") = true).
  { unfold fs_exists. rewrite (bool_decide_eq_true_2 _ Hd).
    apply orb_true_r. }
  rewrite E. reflexivity.
Qed.

Lemma streams_open (w : World) (src desk dest : string) (data : list byte) :
  files w !! src = Some data ->
  src ∉ unreadable w ->
  desk ∈ dirs w -> dest ∉ dirs w -> dest ∉ unwritable w ->
  fs_exists w src = true
  /\ open_read w src = true /\ open_write w desk dest = true.
Proof.
  intros Hf Hr Hd Hnd Hnw. unfold fs_exists, open_read, open_write.
  rewrite Hf.
  rewrite (bool_decide_eq_true_2 (is_Some (Some data))) by eauto.
  rewrite (bool_decide_eq_false_2 _ Hr), (bool_decide_eq_true_2 _ Hd),
    (bool_decide_eq_false_2 _ Hnd), (bool_decide_eq_false_2 _ Hnw).
  repeat split.
Qed.

(** C3 at K = 0: for an existing, readable, empty source file, on a machine
    where the Desktop directory exists and the destination can be opened,
    [removePassword] creates the empty destination and then throws "Failed
    to process wallet file: Error occurred while writing destination file":
    copying no character sets [failbit] on the destination stream, and
    [dst.good()] is false. *)
Theorem empty_wallet_copy_throws :
  forall (t : WalletTool) (w : World) (out : list string) (home : string),
    files w !! walletPath t = Some [] ->
    walletPath t ∉ unreadable w ->
    env_HOME w = Some home ->
    path_append home "Desktop" ∈ dirs w ->
    path_append (path_append home "Desktop") "wallet.dat" ∉ dirs w ->
    path_append (path_append home "Desktop") "wallet.dat" ∉ unwritable w ->
    removePassword t (mkProc w out)
    = (Throw "Failed to process wallet file: Error occurred while writing destination file",
       mkProc
         (set_files
            (<[path_append (path_append home "Desktop") "wallet.dat" := []]>
               (<[path_append (path_append home "Desktop") "wallet.dat" := []]>
                  (files w))) w) out).
Proof.
  intros t w out home Hf Hr Hh Hd Hnd Hnw.
  destruct (streams_open w _ _ _ _ Hf Hr Hd Hnd Hnw) as (He & Ho & Hw).
  rewrite (removePassword_ready t w out home He Hh Hd).
  unfold try_catch. rewrite (copy_wallet_opened _ _ _ _ _ Ho Hw).
  set (dest := path_append (path_append home "Desktop") "wallet.dat").
  assert (E : <[dest := []]> (files w) !!! walletPath t = []).
  { destruct (decide (dest = walletPath t)) as [<- | Hne].
    - apply lookup_total_insert_eq.
    - rewrite lookup_total_insert_ne by exact Hne.
      apply lookup_total_correct, Hf. }
  rewrite E, !limit_nil. reflexivity.
Qed.

Lemma empty_wallet_copy_throws_witness :
  files (sample_world []) !! "/w/wallet.dat" = Some []
  /\ ("/w/wallet.dat" ∉ unreadable (sample_world []))
  /\ env_HOME (sample_world []) = Some "/home/u"
  /\ ("/home/u/Desktop" ∈ dirs (sample_world []))
  /\ ("/home/u/Desktop/wallet.dat" ∉ dirs (sample_world []))
  /\ ("/home/u/Desktop/wallet.dat" ∉ unwritable (sample_world []))
  /\ fst (removePassword
            (mkTool "/w/wallet.dat" "SQLite" "0123456789" true false)
            (mkProc (sample_world []) []))
     = Throw "Failed to process wallet file: Error occurred while writing destination file".
Proof.
  assert (H1 : files (sample_world []) !! "/w/wallet.dat" = Some [])
    by reflexivity.
  assert (H2 : "/w/wallet.dat" ∉ unreadable (sample_world []))
    by (vm_compute; set_solver).
  assert (H3 : env_HOME (sample_world []) = Some "/home/u") by reflexivity.
  assert (H4 : path_append "/home/u" "Desktop" ∈ dirs (sample_world []))
    by (vm_compute; set_solver).
  assert (H5 : path_append (path_append "/home/u" "Desktop") "wallet.dat"
               ∉ dirs (sample_world [])) by (vm_compute; set_solver).
  assert (H6 : path_append (path_append "/home/u" "Desktop") "wallet.dat"
               ∉ unwritable (sample_world [])) by (vm_compute; set_solver).
  repeat (split; [assumption|]).
  rewrite (empty_wallet_copy_throws
             (mkTool "/w/wallet.dat" "SQLite" "0123456789" true false)
             (sample_world []) [] "/home/u" H1 H2 H3 H4 H5 H6).
  reflexivity.
Defined.

(** The run of the tool on the empty wallet of [sample_world]. *)
Lemma empty_wallet_run :
  exit_code
    (main ["wallet-tool"; "--wallet"; "/w/wallet.dat"; "--type"; "SQLite";
           "--KEY"; "0123456789"; "--remove-pass"] (sample_world []))
  = Some 1
  /\ stderr
       (main ["wallet-tool"; "--wallet"; "/w/wallet.dat"; "--type"; "SQLite";
              "--KEY"; "0123456789"; "--remove-pass"] (sample_world []))
     = ["Error: Failed to process wallet file: Error occurred while writing destination file"]
  /\ files
       (final_world
          (main ["wallet-tool"; "--wallet"; "/w/wallet.dat"; "--type";
                 "SQLite"; "--KEY"; "0123456789"; "--remove-pass"]
             (sample_world [])))
       !! "/home/u/Desktop/wallet.dat"
     = Some [].
Proof. repeat split; vm_compute; reflexivity. Qed.

(** A wallet that already is the destination file is truncated when the
    destination is opened, before a byte of it is read: the copy throws
    and the wallet is left empty. *)
Lemma wallet_on_desktop_is_truncated (t : WalletTool) (w : World)
    (out : list string) (home : string) (data : list byte) :
  walletPath t = path_append (path_append home "Desktop") "wallet.dat" ->
  files w !! walletPath t = Some data ->
  walletPath t ∉ unreadable w ->
  env_HOME w = Some home ->
  path_append home "Desktop" ∈ dirs w ->
  walletPath t ∉ dirs w ->
  walletPath t ∉ unwritable w ->
  exists w' : World,
    removePassword t (mkProc w out)
    = (Throw "Failed to process wallet file: Error occurred while writing destination file",
       mkProc w' out)
    /\ files w' !! walletPath t = Some [].
Proof.
  intros Hp Hf Hr Hh Hd Hnd Hnw.
  destruct (streams_open w _ _ _ _ Hf Hr Hd Hnd Hnw) as (He & Ho & Hw).
  rewrite (removePassword_ready t w out home He Hh Hd).
  unfold try_catch. rewrite <- Hp.
  rewrite (copy_wallet_opened _ _ _ _ _ Ho Hw).
  rewrite lookup_total_insert_eq, !limit_nil.
  eexists. split; [reflexivity|].
  cbn [files set_files]. apply lookup_insert_eq.
Qed.

(** The sound part of C3: a non-empty, readable source that is not the
    destination itself is copied byte for byte, provided the stream takes
    all the bytes and all of them reach the file. *)
Lemma nonempty_wallet_copied (t : WalletTool) (w : World)
    (out : list string) (home : string) (b : byte) (data : list byte) :
  files w !! walletPath t = Some (b :: data) ->
  walletPath t ∉ unreadable w ->
  env_HOME w = Some home ->
  path_append home "Desktop" ∈ dirs w ->
  path_append (path_append home "Desktop") "wallet.dat" ∉ dirs w ->
  path_append (path_append home "Desktop") "wallet.dat" ∉ unwritable w ->
  write_limit w = None ->
  flush_limit w = None ->
  walletPath t <> path_append (path_append home "Desktop") "wallet.dat" ->
  exists w' : World,
    removePassword t (mkProc w out)
    = (Ret tt,
       mkProc w'
         (out ++ ["The new wallet.dat file with the password removed was saved to: "
                    +:+ path_append (path_append home "Desktop") "wallet.dat"]))
    /\ files w' !! path_append (path_append home "Desktop") "wallet.dat"
       = Some (b :: data)
    /\ files w' !! walletPath t = Some (b :: data).
Proof.
  intros Hf Hr Hh Hd Hnd Hnw Hwl Hfl Hne.
  destruct (streams_open w _ _ _ _ Hf Hr Hd Hnd Hnw) as (He & Ho & Hw).
  rewrite (removePassword_ready t w out home He Hh Hd).
  unfold try_catch. rewrite (copy_wallet_opened _ _ _ _ _ Ho Hw).
  rewrite Hwl, Hfl, !limit_none. rewrite lookup_total_insert_ne by congruence.
  rewrite (lookup_total_correct _ _ _ Hf).
  eexists. split; [reflexivity|]. cbn [files set_files]. split.
  - apply lookup_insert_eq.
  - rewrite !lookup_insert_ne by congruence. exact Hf.
Qed.

(** [dumpAllKeys] ends: it throws when the wallet cannot be opened, and
    writes the lines of the scan otherwise. *)
Lemma dumpAllKeys_eq (t : WalletTool) (st : Proc) :
  dumpAllKeys t st
  = if open_read (world st) (walletPath t)
    then
      (Ret tt,
       mkProc (world st)
         (cout st
            ++ match occurrences tag_mkey
                       (files (world st) !!! walletPath t) with
               | [] => ["There is no Master Key in the file"]
               | p :: _ =>
                   [mkey_line (files (world st) !!! walletPath t)
                      (malloc (world st) 0 48) p; ""]
                     ++ ckey_lines (files (world st) !!! walletPath t)
                          (malloc (world st) 1 123)
                          (occurrences tag_ckey
                             (files (world st) !!! walletPath t))
               end))
    else (Throw ("Can't open file " +:+ walletPath t), st).
Proof.
  unfold dumpAllKeys, bind, get_world.
  destruct (open_read (world st) (walletPath t)); cbn [negb];
    [|reflexivity].
  rewrite scan_keys_spec. reflexivity.
Qed.

Lemma try_copy_ended (src desk dest : string) (st : Proc) :
  ended
    (try_catch (copy_wallet src desk dest)
       (fun what => throw ("Failed to process wallet file: " +:+ what)) st).
Proof.
  unfold ended, try_catch, copy_wallet, bind, get_world, put_world, print,
    throw.
  destruct (negb (open_read (world st) src)); [exact I|].
  destruct (negb (open_write (world st) desk dest)); [exact I|].
  cbn [world cout fst].
  destruct (negb _); exact I.
Qed.

Lemma removePassword_ended (t : WalletTool) (st : Proc) :
  ended (removePassword t st).
Proof.
  unfold removePassword.
  unfold bind at 1. unfold get_world at 1.
  destruct (negb (fs_exists (world st) (walletPath t))); [exact I|].
  unfold bind at 1.
  destruct (env_HOME (world st)) as [home|] eqn:Hh.
  - rewrite (getDesktopPath_eq st home Hh).
    unfold bind at 1. unfold get_world at 1.
    unfold bind at 1.
    destruct (negb (fs_exists (world st) (path_append home "Desktop"))).
    + unfold create_directories, bind, get_world, put_world, throw.
      destruct (bool_decide _); [exact I | apply try_copy_ended].
    + apply try_copy_ended.
  - unfold getDesktopPath, bind, get_world. rewrite Hh. exact I.
Qed.

Lemma execute_ended (t : WalletTool) (st : Proc) : ended (execute t st).
Proof.
  unfold execute. destruct (dumpKeys t).
  - rewrite dumpAllKeys_eq. unfold ended.
    destruct (open_read (world st) (walletPath t)); exact I.
  - destruct (removePass t); [apply removePassword_ended | exact I].
Qed.

(** Every run of the body of [main] ends. *)
Lemma main_body_ended (argv : list string) (st : Proc) :
  ended (main_body argv st).
Proof.
  unfold main_body, bind.
  destruct (parseArgs_outcome argv new_tool st)
    as [(t' & st1 & -> & _) | (e & ->)]; [apply execute_ended | exact I].
Qed.

(** What is thrown reaches the handler of [main]: a run ends with exit
    code 0 and an empty [stderr] when nothing was thrown, and with exit
    code 1 and the one line "Error: " followed by [what()] otherwise. *)
Lemma thrown_error_is_reported (argv : list string) (w : World) :
  (exists st : Proc,
     main_body argv (mkProc w []) = (Ret tt, st)
     /\ main argv w = mkRun (Some 0) (world st) (cout st) [])
  \/ (exists (e : string) (st : Proc),
        main_body argv (mkProc w []) = (Throw e, st)
        /\ main argv w
           = mkRun (Some 1) (world st) (cout st) ["Error: " +:+ e]).
Proof.
  pose proof (main_body_ended argv (mkProc w [])) as H.
  unfold main, ended in *.
  destruct (main_body argv (mkProc w [])) as [[[] | e |] st];
    cbn [fst] in H; [left | right | contradiction]; eauto.
Qed.

Lemma copy_wallet_dest_refused (src desk dest : string) (st : Proc) :
  open_read (world st) src = true ->
  open_write (world st) desk dest = false ->
  copy_wallet src desk dest st = (Throw "Cannot create destination file", st).
Proof.
  intros Hr Hw. unfold copy_wallet, bind, get_world.
  rewrite Hr, Hw. reflexivity.
Qed.

(** The parser on the command line of a removal. *)
Lemma parse_remove_command (prog src key : string) (st : Proc) :
  src <> "" ->
  isValidHexString key = true ->
  parseArgs (remove_command prog src key) new_tool st
  = (Ret (mkTool src "SQLite" key true false), st).
Proof.
  intros Hs Hk. unfold remove_command, parseArgs.
  cbn [List.length Nat.eqb tl].
  cbn [parse_loop String.eqb Ascii.eqb Bool.eqb negb andb new_tool
       walletPath dbType hexKey removePass dumpKeys].
  rewrite Hk. cbn [negb].
  unfold bind, validateOptions.
  cbn [walletPath dbType hexKey removePass dumpKeys empty orb].
  destruct src as [|c src']; [congruence|].
  destruct key as [|c' key']; [discriminate Hk|].
  reflexivity.
Qed.

(** The run of a removal is the run of [removePassword]. *)
Lemma remove_command_run (prog src key : string) (w : World) :
  src <> "" ->
  isValidHexString key = true ->
  main (remove_command prog src key) w
  = match removePassword (mkTool src "SQLite" key true false) (mkProc w [])
    with
    | (Ret _, st) => mkRun (Some 0) (world st) (cout st) []
    | (Throw what, st) =>
        mkRun (Some 1) (world st) (cout st) ["Error: " +:+ what]
    | (Diverge, st) => mkRun None (world st) (cout st) []
    end.
Proof.
  intros Hs Hk. unfold main, main_body. unfold bind at 1.
  rewrite (parse_remove_command prog src key _ Hs Hk). reflexivity.
Qed.

(** The run of a removal on the one-byte wallet of [full_disk_world]: not
    a byte reaches the destination, and the run reports the copy as made
    and ends with exit code 0. *)
Lemma full_disk_run :
  main (remove_command "wallet-tool" "/w/wallet.dat" "0123456789")
    (full_disk_world [x2a])
  = mkRun (Some 0)
      (set_files
         {["/w/wallet.dat" := [x2a]; "/home/u/Desktop/wallet.dat" := []]}
         (full_disk_world [x2a]))
      ["The new wallet.dat file with the password removed was saved to: /home/u/Desktop/wallet.dat"]
      [].
Proof. vm_compute. reflexivity. Qed.

(** A directory given as the wallet is opened like a file and reads as no
    bytes: the dump writes the notice and ends with exit code 0; the copy
    creates the destination and then throws. *)
Lemma directory_as_wallet :
  main ["wallet-tool"; "--wallet"; "/home/u/Desktop"; "--dump-all-keys"]
    (sample_world [x2a])
  = mkRun (Some 0) (sample_world [x2a])
      ["There is no Master Key in the file"] []
  /\ exit_code
       (main (remove_command "wallet-tool" "/home/u/Desktop" "0123456789")
          (sample_world [x2a]))
     = Some 1
  /\ stderr
       (main (remove_command "wallet-tool" "/home/u/Desktop" "0123456789")
          (sample_world [x2a]))
     = ["Error: Failed to process wallet file: Error occurred while writing destination file"]
  /\ files
       (final_world
          (main (remove_command "wallet-tool" "/home/u/Desktop" "0123456789")
             (sample_world [x2a])))
       !! "/home/u/Desktop/wallet.dat"
     = Some [].
Proof. repeat split; vm_compute; reflexivity. Qed.

(** C8 at a destination error: the run of a removal on a non-empty,
    readable wallet, with the Desktop directory there.  A destination that
    cannot be opened ends the run with exit code 1 and one "Error: " line,
    and so does a stream that takes no byte.  But once the stream has
    taken a byte, [dst.good()] holds when it is tested, before the flush:
    whatever the device then refuses, the run writes the success line,
    nothing on [stderr], and ends with exit code 0, the destination
    holding only the bytes that got through, none at all on a full
    device. *)
Theorem destination_error_at_flush_goes_unreported :
  forall (prog src key home dest : string) (b : byte) (data : list byte)
         (w : World),
    src <> "" ->
    isValidHexString key = true ->
    files w !! src = Some (b :: data) ->
    src ∉ unreadable w ->
    env_HOME w = Some home ->
    path_append home "Desktop" ∈ dirs w ->
    dest = path_append (path_append home "Desktop") "wallet.dat" ->
    dest ∉ dirs w ->
    src <> dest ->
    (dest ∈ unwritable w ->
     main (remove_command prog src key) w
     = mkRun (Some 1) w []
         ["Error: Failed to process wallet file: Cannot create destination file"])
    /\ (dest ∉ unwritable w -> write_limit w = Some 0%nat ->
        exit_code (main (remove_command prog src key) w) = Some 1
        /\ stderr (main (remove_command prog src key) w)
           = ["Error: Failed to process wallet file: Error occurred while writing destination file"]
        /\ stdout (main (remove_command prog src key) w) = [])
    /\ (dest ∉ unwritable w -> write_limit w <> Some 0%nat ->
        exit_code (main (remove_command prog src key) w) = Some 0
        /\ stderr (main (remove_command prog src key) w) = []
        /\ stdout (main (remove_command prog src key) w)
           = ["The new wallet.dat file with the password removed was saved to: "
                +:+ dest]
        /\ files (final_world (main (remove_command prog src key) w)) !! dest
           = Some (limit (flush_limit w) (limit (write_limit w) (b :: data)))
        /\ (flush_limit w = Some 0%nat ->
            files (final_world (main (remove_command prog src key) w))
              !! dest
            = Some [])).
Proof.
  intros prog src key home dest b data w Hs Hk Hf Hr Hh Hd -> Hnd Hne.
  set (dest := path_append (path_append home "Desktop") "wallet.dat") in *.
  rewrite (remove_command_run prog src key w Hs Hk).
  set (t := mkTool src "SQLite" key true false).
  assert (He : fs_exists w (walletPath t) = true).
  { unfold fs_exists. cbn [walletPath t]. rewrite Hf.
    rewrite (bool_decide_eq_true_2 (is_Some (Some (b :: data)))) by eauto.
    reflexivity. }
  rewrite (removePassword_ready t w [] home He Hh Hd). fold dest.
  cbn [walletPath t]. unfold try_catch.
  split; [|split].
  - intros Hu.
    assert (Ho : open_read w src = true).
    { unfold open_read. rewrite Hf.
      rewrite (bool_decide_eq_true_2 (is_Some (Some (b :: data)))) by eauto.
      rewrite (bool_decide_eq_false_2 _ Hr). reflexivity. }
    assert (Hw : open_write w (path_append home "Desktop") dest = false).
    { unfold open_write. rewrite (bool_decide_eq_true_2 _ Hu).
      apply andb_false_r. }
    rewrite (copy_wallet_dest_refused src _ dest (mkProc w []) Ho Hw).
    reflexivity.
  - intros Hu Hz.
    destruct (streams_open w src (path_append home "Desktop") dest _
                Hf Hr Hd Hnd Hu) as (_ & Ho & Hw).
    rewrite (copy_wallet_opened _ _ _ _ _ Ho Hw).
    rewrite lookup_total_insert_ne by congruence.
    rewrite (lookup_total_correct _ _ _ Hf), Hz.
    cbn [limit firstn]. repeat split.
  - intros Hu Hz.
    destruct (streams_open w src (path_append home "Desktop") dest _
                Hf Hr Hd Hnd Hu) as (_ & Ho & Hw).
    rewrite (copy_wallet_opened _ _ _ _ _ Ho Hw).
    rewrite lookup_total_insert_ne by congruence.
    rewrite (lookup_total_correct _ _ _ Hf).
    destruct (limit_cons (write_limit w) b data Hz) as [taken ->].
    cbn [exit_code stderr stdout final_world world cout files set_files].
    assert (D : <[dest := limit (flush_limit w) (b :: taken)]>
                  (<[dest := []]> (files w)) !! dest
                = Some (limit (flush_limit w) (b :: taken)))
      by apply lookup_insert_eq.
    split; [reflexivity|]. split; [reflexivity|]. split; [reflexivity|].
    split; [exact D|].
    intros Hfl. rewrite D, Hfl. reflexivity.
Qed.

Lemma destination_error_at_flush_goes_unreported_witness :
  "/w/wallet.dat" <> ""
  /\ isValidHexString "0123456789" = true
  /\ files (full_disk_world [x2a]) !! "/w/wallet.dat" = Some [x2a]
  /\ ("/w/wallet.dat" ∉ unreadable (full_disk_world [x2a]))
  /\ env_HOME (full_disk_world [x2a]) = Some "/home/u"
  /\ (path_append "/home/u" "Desktop" ∈ dirs (full_disk_world [x2a]))
  /\ ("/home/u/Desktop/wallet.dat" ∉ dirs (full_disk_world [x2a]))
  /\ "/w/wallet.dat" <> "/home/u/Desktop/wallet.dat"
  /\ ("/home/u/Desktop/wallet.dat" ∉ unwritable (full_disk_world [x2a]))
  /\ write_limit (full_disk_world [x2a]) <> Some 0%nat
  /\ flush_limit (full_disk_world [x2a]) = Some 0%nat
  /\ exit_code
       (main (remove_command "wallet-tool" "/w/wallet.dat" "0123456789")
          (full_disk_world [x2a]))
     = Some 0
  /\ stderr
       (main (remove_command "wallet-tool" "/w/wallet.dat" "0123456789")
          (full_disk_world [x2a]))
     = []
  /\ files
       (final_world
          (main (remove_command "wallet-tool" "/w/wallet.dat" "0123456789")
             (full_disk_world [x2a])))
       !! "/home/u/Desktop/wallet.dat"
     = Some [].
Proof.
  assert (H1 : "/w/wallet.dat" <> "") by discriminate.
  assert (H2 : isValidHexString "0123456789" = true) by reflexivity.
  assert (H3 : files (full_disk_world [x2a]) !! "/w/wallet.dat" = Some [x2a])
    by reflexivity.
  assert (H4 : "/w/wallet.dat" ∉ unreadable (full_disk_world [x2a]))
    by (vm_compute; set_solver).
  assert (H5 : env_HOME (full_disk_world [x2a]) = Some "/home/u")
    by reflexivity.
  assert (H6 : path_append "/home/u" "Desktop" ∈ dirs (full_disk_world [x2a]))
    by (vm_compute; set_solver).
  assert (H7 : "/home/u/Desktop/wallet.dat"
               = path_append (path_append "/home/u" "Desktop") "wallet.dat")
    by reflexivity.
  assert (H8 : "/home/u/Desktop/wallet.dat" ∉ dirs (full_disk_world [x2a]))
    by (vm_compute; set_solver).
  assert (H9 : "/w/wallet.dat" <> "/home/u/Desktop/wallet.dat")
    by discriminate.
  assert (H10 : "/home/u/Desktop/wallet.dat"
                ∉ unwritable (full_disk_world [x2a]))
    by (vm_compute; set_solver).
  assert (H11 : write_limit (full_disk_world [x2a]) <> Some 0%nat)
    by discriminate.
  assert (H12 : flush_limit (full_disk_world [x2a]) = Some 0%nat)
    by reflexivity.
  destruct (proj2 (proj2 (destination_error_at_flush_goes_unreported
                            "wallet-tool" "/w/wallet.dat" "0123456789"
                            "/home/u" "/home/u/Desktop/wallet.dat" x2a []
                            (full_disk_world [x2a])
                            H1 H2 H3 H4 H5 H6 H7 H8 H9)) H10 H11)
    as (E1 & E2 & _ & _ & E3).
  repeat (split; [assumption|]).
  exact (E3 H12).
Defined.

Lemma same_but_key_validate (t1 t2 : WalletTool) (st : Proc) :
  same_but_key t1 t2 -> validateOptions t1 st = validateOptions t2 st.
Proof.
  intros (Hw & Ht & Hr & Hd & Hk). unfold validateOptions.
  rewrite Hw, Ht, Hr, Hd, Hk. reflexivity.
Qed.

(** Neither operation reads [hexKey]: both depend on the tool through
    [walletPath] alone. *)
Lemma dumpAllKeys_path (t1 t2 : WalletTool) :
  walletPath t1 = walletPath t2 -> dumpAllKeys t1 = dumpAllKeys t2.
Proof. intros H. unfold dumpAllKeys. rewrite H. reflexivity. Qed.

Lemma removePassword_path (t1 t2 : WalletTool) :
  walletPath t1 = walletPath t2 -> removePassword t1 = removePassword t2.
Proof. intros H. unfold removePassword. rewrite H. reflexivity. Qed.

Lemma same_but_key_execute (t1 t2 : WalletTool) :
  same_but_key t1 t2 -> execute t1 = execute t2.
Proof.
  intros (Hw & Ht & Hr & Hd & Hk). unfold execute.
  rewrite Hr, Hd, (dumpAllKeys_path _ _ Hw), (removePassword_path _ _ Hw).
  reflexivity.
Qed.

Lemma subst_key_cons (k arg : string) (rest : list string) :
  subst_key k (arg :: rest)
  = if String.eqb arg "--wallet" || String.eqb arg "--type" then
      match rest with
      | [] => [arg]
      | v :: rest' => arg :: v :: subst_key k rest'
      end
    else if String.eqb arg "--KEY" then
      match rest with
      | [] => [arg]
      | _ :: rest' => arg :: k :: subst_key k rest'
      end
    else arg :: subst_key k rest.
Proof. reflexivity. Qed.

Lemma subst_key_nonempty (k arg : string) (rest : list string) :
  exists (x : string) (l : list string), subst_key k (arg :: rest) = x :: l.
Proof.
  rewrite subst_key_cons.
  destruct (String.eqb arg "--wallet" || String.eqb arg "--type");
    [destruct rest; eauto|].
  destruct (String.eqb arg "--KEY"); [destruct rest; eauto | eauto].
Qed.

Lemma valid_key_nonempty (k : string) :
  isValidHexString k = true -> empty k = false.
Proof. destruct k; [discriminate | reflexivity]. Qed.

Lemma same_parse_validate (t1 t2 : WalletTool) (st : Proc) :
  same_but_key t1 t2 ->
  same_parse (parse_loop [] t1 st) (parse_loop [] t2 st).
Proof.
  intros H. cbn [parse_loop]. unfold bind.
  rewrite (same_but_key_validate t1 t2 st H).
  destruct (validateOptions_pure t2 st) as [-> | [e ->]];
    split; cbn; auto.
Qed.

(** Parsing two argument lists that differ in the values of "--KEY" only,
    both values being accepted. *)
Lemma parse_same (k1 k2 : string) :
  isValidHexString k1 = true -> isValidHexString k2 = true ->
  forall (n : nat) (args : list string) (t1 t2 : WalletTool) (st : Proc),
    (List.length args <= n)%nat ->
    same_but_key t1 t2 ->
    same_parse (parse_loop (subst_key k1 args) t1 st)
      (parse_loop (subst_key k2 args) t2 st).
Proof.
  intros V1 V2. induction n as [|n IH]; intros args t1 t2 st Hn Hs.
  - destruct args; [|simpl in Hn; lia]. apply same_parse_validate, Hs.
  - destruct args as [|arg rest]; [apply same_parse_validate, Hs|].
    simpl in Hn. destruct Hs as (Hw & Ht & Hr & Hd & Hk).
    rewrite !subst_key_cons.
    destruct (String.eqb arg "--wallet") eqn:E1.
    { apply String.eqb_eq in E1. subst arg. cbn [orb].
      destruct rest as [|v rest']; [split; reflexivity|].
      rewrite !parse_loop_cons. cbn [String.eqb Ascii.eqb Bool.eqb].
      apply IH; [simpl in Hn; lia|].
      repeat split; cbn; assumption. }
    destruct (String.eqb arg "--type") eqn:E2.
    { apply String.eqb_eq in E2. subst arg. cbn [orb].
      destruct rest as [|v rest']; [split; reflexivity|].
      rewrite !parse_loop_cons. cbn [String.eqb Ascii.eqb Bool.eqb].
      destruct (negb (String.eqb v "BerkelyDB") && negb (String.eqb v "SQLite"));
        [split; reflexivity|].
      apply IH; [simpl in Hn; lia|].
      repeat split; cbn; assumption. }
    cbn [orb].
    destruct (String.eqb arg "--KEY") eqn:E3.
    { apply String.eqb_eq in E3. subst arg.
      destruct rest as [|v rest']; [split; reflexivity|].
      rewrite !parse_loop_cons. cbn [String.eqb Ascii.eqb Bool.eqb].
      rewrite V1, V2. cbn [negb].
      apply IH; [simpl in Hn; lia|].
      repeat split; cbn [walletPath dbType hexKey removePass dumpKeys];
        try assumption.
      rewrite !valid_key_nonempty by assumption. reflexivity. }
    rewrite !parse_loop_cons, E1, E2, E3.
    destruct (String.eqb arg "--help").
    { split; [reflexivity|]. cbn. repeat split; assumption. }
    destruct (String.eqb arg "--remove-pass").
    { apply IH; [lia|]. repeat split; cbn; assumption. }
    destruct (String.eqb arg "--dump-all-keys").
    { apply IH; [lia|]. repeat split; cbn; assumption. }
    split; reflexivity.
Qed.

(** C9: [removePassword] does not read [hexKey]; and for any argument list,
    whichever accepted value is given to its "--KEY" options, the run of
    [main] is the same: same exit code, same [stdout] and [stderr], same
    machine afterwards, hence the same destination file. *)
Theorem key_value_never_read :
  forall (args : list string) (prog : string) (w : World) (k1 k2 : string),
    isValidHexString k1 = true ->
    isValidHexString k2 = true ->
    (forall (t : WalletTool) (st : Proc),
       removePassword
         (mkTool (walletPath t) (dbType t) k1 (removePass t) (dumpKeys t)) st
       = removePassword
           (mkTool (walletPath t) (dbType t) k2 (removePass t) (dumpKeys t))
           st)
    /\ main (prog :: subst_key k1 args) w = main (prog :: subst_key k2 args) w.
Proof.
  intros args prog w k1 k2 V1 V2. split; [reflexivity|].
  destruct args as [|arg rest]; [reflexivity|].
  pose proof (parse_same k1 k2 V1 V2 _ (arg :: rest) new_tool new_tool
                (mkProc w []) (le_n _)) as P.
  destruct (subst_key_nonempty k1 arg rest) as (x1 & l1 & E1).
  destruct (subst_key_nonempty k2 arg rest) as (x2 & l2 & E2).
  unfold main, main_body, bind, parseArgs.
  rewrite E1, E2 in *. cbn [List.length Nat.eqb tl].
  destruct P as [Hst Hout]; [repeat split|].
  destruct (parse_loop (x1 :: l1) new_tool (mkProc w [])) as [o1 s1].
  destruct (parse_loop (x2 :: l2) new_tool (mkProc w [])) as [o2 s2].
  cbn [fst snd] in Hst, Hout. subst s2.
  destruct o1 as [a | e1 |], o2 as [b | e2 |]; try contradiction.
  - rewrite (same_but_key_execute a b Hout). reflexivity.
  - subst e2. reflexivity.
Qed.

Lemma key_value_never_read_witness :
  isValidHexString "0123456789" = true
  /\ isValidHexString "ABCDEFabcd" = true
  /\ main ["wallet-tool"; "--wallet"; "/w/wallet.dat"; "--type"; "SQLite";
           "--KEY"; "0123456789"; "--remove-pass"] (sample_world [x2a])
     = main ["wallet-tool"; "--wallet"; "/w/wallet.dat"; "--type"; "SQLite";
             "--KEY"; "ABCDEFabcd"; "--remove-pass"] (sample_world [x2a]).
Proof.
  split; [reflexivity|]. split; [reflexivity|].
  apply (key_value_never_read
           ["--wallet"; "/w/wallet.dat"; "--type"; "SQLite"; "--KEY"; "";
            "--remove-pass"]
           "wallet-tool" (sample_world [x2a]) "0123456789" "ABCDEFabcd");
    reflexivity.
Defined.

End ToolFacts.

(* ===================================================================== *)
(** ** Further properties of the hex reporter and the scanner *)
(* ===================================================================== *)

Module ScannerMore.
Import Hex Stdio Scanner Env Exn Tool Vocab HexFacts ScannerFacts ToolFacts.

(** [tohex] on any buffer and any count: the bytes it reads are the
    elements [i .. i + n - 1], NUL standing for what lies beyond. *)
Lemma tohex_loop_any (ptr : list byte) :
  forall (n i : nat) (ss : string),
    tohex_loop ptr i n ss
    = ss +:+ hex_of_bytes (map (fun j => nth j ptr x00) (seq i n)).
Proof.
  induction n as [|n IH]; intros i ss; cbn [tohex_loop seq map].
  - simpl. now rewrite str_app_nil_r.
  - rewrite IH, put_hex_byte, str_app_assoc. reflexivity.
Qed.

Lemma tohex_any (buf : list byte) (n : nat) :
  tohex buf (Z.of_nat n)
  = hex_of_bytes (map (fun j => nth j buf x00) (seq 0 n)).
Proof. unfold tohex. rewrite Nat2Z.id, tohex_loop_any. reflexivity. Qed.

Lemma tohex_48_is_record (buf : list byte) : is_record_hex (tohex buf 48).
Proof.
  change 48 with (Z.of_nat 48). rewrite tohex_any. split.
  - rewrite hex_of_bytes_length, length_map, length_seq. reflexivity.
  - apply hex_of_bytes_lower.
Qed.

Lemma digit_val_hex_digit (d : Z) :
  0 <= d < 16 -> digit_val (hex_digit d) = d.
Proof.
  intros H.
  assert (E : d = 0 \/ d = 1 \/ d = 2 \/ d = 3 \/ d = 4 \/ d = 5 \/ d = 6
              \/ d = 7 \/ d = 8 \/ d = 9 \/ d = 10 \/ d = 11 \/ d = 12
              \/ d = 13 \/ d = 14 \/ d = 15) by lia.
  repeat (destruct E as [-> | E]; [reflexivity|]). subst d. reflexivity.
Qed.

Lemma byte_val_range (b : byte) : 0 <= byte_val b < 256.
Proof. destruct b; vm_compute; split; congruence. Qed.

Lemma byte_val_inj (a b : byte) : byte_val a = byte_val b -> a = b.
Proof.
  unfold byte_val. intros H. apply N2Z.inj in H.
  pose proof (Byte.of_to_N a) as Ha. pose proof (Byte.of_to_N b) as Hb.
  rewrite H in Ha. congruence.
Qed.

Lemma hex_of_bytes_inj (a : list byte) :
  forall b : list byte, hex_of_bytes a = hex_of_bytes b -> a = b.
Proof.
  induction a as [|x a IH]; intros [|y b] H; simpl in H;
    try discriminate; [reflexivity|].
  unfold two_digits in H. injection H as Hh Hl Hr.
  f_equal; [|apply IH, Hr].
  apply byte_val_inj.
  pose proof (byte_val_range x) as Rx. pose proof (byte_val_range y) as Ry.
  apply (f_equal digit_val) in Hh, Hl.
  rewrite !digit_val_hex_digit in Hh, Hl
    by (try apply Z.mod_pos_bound; try (split;
          [apply Z.div_pos | apply Z.div_lt_upper_bound]); lia).
  rewrite (Z.div_mod (byte_val x) 16), (Z.div_mod (byte_val y) 16) by lia.
  congruence.
Qed.

(** X1: the hex rendering loses nothing: two buffers with the same
    rendering are the same buffer. *)
Theorem tohex_is_injective :
  forall a b : list byte,
    tohex a (Z.of_nat (List.length a)) = tohex b (Z.of_nat (List.length b)) ->
    a = b.
Proof.
  intros a b H. rewrite !tohex_spec in H. apply hex_of_bytes_inj, H.
Qed.

Lemma tohex_is_injective_witness :
  tohex [x0a; xff] (Z.of_nat (List.length [x0a; xff]))
  = tohex [x0a; xff] (Z.of_nat (List.length [x0a; xff]))
  /\ [x0a; xff] = [x0a; xff].
Proof.
  split; [reflexivity|].
  apply (tohex_is_injective [x0a; xff] [x0a; xff]). reflexivity.
Defined.

(** X2: [tohex] renders byte after byte: the rendering of two buffers put
    end to end is the two renderings put end to end, and a count that is
    zero or negative gives the empty string. *)
Theorem tohex_of_concatenation :
  forall (a b : list byte) (n : Z),
    tohex (a ++ b) (Z.of_nat (List.length a + List.length b))
    = tohex a (Z.of_nat (List.length a)) +:+ tohex b (Z.of_nat (List.length b))
    /\ (n <= 0 -> tohex a n = "").
Proof.
  intros a b n. split.
  - rewrite <- length_app, !tohex_spec.
    induction a as [|x a IH]; [reflexivity|].
    simpl. unfold two_digits. rewrite IH. reflexivity.
  - intros Hn. unfold tohex.
    replace (Z.to_nat n) with O by lia. reflexivity.
Qed.

(** X3: both loops of [dumpAllKeys] end on every container: with any
    fuel of at least the length of the container neither loop runs out of
    it, so the run makes at most that many iterations per loop. *)
Theorem dump_loops_end :
  forall (data junk_m junk_c : list byte) (out : list string) (fuel : nat),
    (List.length data <= fuel)%nat ->
    (exists s : MState,
       mkey_loop fuel (mkM (fopen_rb data) 0 false junk_m []) = Some s)
    /\ (exists c : CState,
          ckey_loop fuel (mkC (mkFILE data 0 false) 0 junk_c out) = Some c).
Proof.
  intros data jm jc out fuel Hf. split.
  - destruct (mkey_loop_spec data (List.length data) fuel 0 jm [])
      as (w & i & _ & E); [reflexivity | exact Hf |].
    eexists. exact E.
  - destruct (ckey_loop_spec data fuel (List.length data) 0 jc out)
      as (w & i & buf & _ & E); [reflexivity | exact Hf |].
    eexists. exact E.
Qed.

Lemma dump_loops_end_witness :
  (List.length mkey_then_ckey <= 215)%nat
  /\ exists s : MState,
       mkey_loop 215 (mkM (fopen_rb mkey_then_ckey) 0 false (zeros 48) [])
       = Some s.
Proof.
  assert (H : (List.length mkey_then_ckey <= 215)%nat) by (vm_compute; lia).
  split; [exact H|].
  exact (proj1 (dump_loops_end mkey_then_ckey (zeros 48) (zeros 123) [] 215 H)).
Defined.

Lemma ckey_lines_hex (data : list byte) (ps : list nat) :
  forall buf : list byte,
    exists hexes : list string,
      ckey_lines data buf ps = map (fun h => "encrypted ckey: " +:+ h) hexes
      /\ List.length hexes = List.length ps
      /\ Forall is_record_hex hexes.
Proof.
  induction ps as [|p ps IH]; intros buf.
  - exists []. repeat split. constructor.
  - destruct (IH (store buf (window_read data 52 123 p)))
      as (hexes & E & L & F).
    exists (tohex (firstn 48 (store buf (window_read data 52 123 p))) 48
              :: hexes).
    split; [cbn [ckey_lines map]; rewrite E; reflexivity|].
    split; [simpl; rewrite L; reflexivity|].
    constructor; [apply tohex_48_is_record | exact F].
Qed.

(** X4: whenever "mkey" occurs in the container, what [dumpAllKeys] writes
    is one "Mkey_encrypted: " line, one empty line, and one
    "encrypted ckey: " line for every occurrence of "ckey" in the
    container, whether or not the windows fit; every record is 96
    lowercase hexadecimal digits, whatever the buffers held and however
    short the reads were. *)
Theorem dump_output_shape :
  forall (data junk_m junk_c : list byte),
    occurrences tag_mkey data <> [] ->
    exists (hexm : string) (hexes : list string),
      scan_keys data junk_m junk_c
      = Some (("Mkey_encrypted: " +:+ hexm) :: ""
                :: map (fun h => "encrypted ckey: " +:+ h) hexes)
      /\ List.length hexes = List.length (occurrences tag_ckey data)
      /\ is_record_hex hexm
      /\ Forall is_record_hex hexes.
Proof.
  intros data jm jc Hm.
  destruct (occurrences tag_mkey data) as [|p ps] eqn:Ho; [congruence|].
  destruct (ckey_lines_hex data (occurrences tag_ckey data) jc)
    as (hexes & E & L & F).
  exists (tohex (store jm (window_read data 72 48 p)) 48), hexes.
  split; [|split; [exact L | split; [apply tohex_48_is_record | exact F]]].
  rewrite scan_keys_spec, Ho, E. reflexivity.
Qed.

Lemma dump_output_shape_witness :
  occurrences tag_mkey mkey_then_ckey <> []
  /\ exists (hexm : string) (hexes : list string),
       scan_keys mkey_then_ckey [] []
       = Some (("Mkey_encrypted: " +:+ hexm) :: ""
                 :: map (fun h => "encrypted ckey: " +:+ h) hexes)
       /\ List.length hexes = 1%nat.
Proof.
  assert (H : occurrences tag_mkey mkey_then_ckey <> [])
    by (vm_compute; discriminate).
  split; [exact H|].
  destruct (dump_output_shape mkey_then_ckey [] [] H)
    as (hexm & hexes & E & L & _).
  exists hexm, hexes. split; [exact E|]. rewrite L. reflexivity.
Defined.

Lemma ckey_lines_In_prefix (data : list byte) (ps : list nat) (x : string) :
  forall buf : list byte,
    In x (ckey_lines data buf ps) -> has_prefix "encrypted ckey: " x = true.
Proof.
  induction ps as [|p ps IH]; intros buf H; [destruct H|].
  cbn [ckey_lines] in H. destruct H as [<- | H];
    [apply has_prefix_app | exact (IH _ H)].
Qed.

(** X5: the two outcomes of the first loop exclude each other: the line
    "There is no Master Key in the file" is written exactly when "mkey"
    occurs nowhere in the container, and a "Mkey_encrypted: " line is
    written exactly when it occurs somewhere. *)
Theorem master_key_line_or_notice :
  forall data junk_m junk_c : list byte,
    exists out : list string,
      scan_keys data junk_m junk_c = Some out
      /\ (In "There is no Master Key in the file" out
          <-> occurrences tag_mkey data = [])
      /\ (count_lines "Mkey_encrypted: " out = 1%nat
          <-> occurrences tag_mkey data <> []).
Proof.
  intros data jm jc. eexists. split; [apply scan_keys_spec|].
  destruct (occurrences tag_mkey data) as [|p ps].
  - split; split; intros H; try reflexivity; try congruence.
    + left. reflexivity.
    + vm_compute in H. discriminate.
  - split; split; intros H; try discriminate.
    + exfalso. cbn [app] in H. destruct H as [H | [H | H]].
      * unfold mkey_line in H.
        apply (f_equal (has_prefix "Mkey_encrypted: ")) in H.
        rewrite has_prefix_app in H. vm_compute in H. discriminate.
      * discriminate.
      * apply ckey_lines_In_prefix in H. vm_compute in H. discriminate.
    + unfold count_lines, mkey_line. cbn [app List.filter].
      rewrite (has_prefix_app "Mkey_encrypted: ").
      replace (has_prefix "Mkey_encrypted: " "") with false by reflexivity.
      rewrite ckey_lines_no_mkey. reflexivity.
Qed.

(** X6: the dump only reads: [dumpAllKeys] leaves the machine as it was,
    and so does every run of [main] whose arguments select the dump. *)
Theorem dump_changes_nothing :
  forall (argv : list string) (w : World) (t : WalletTool) (st : Proc),
    parseArgs argv new_tool (mkProc w []) = (Ret t, st) ->
    dumpKeys t = true ->
    final_world (main argv w) = w
    /\ forall st' : Proc, world (snd (dumpAllKeys t st')) = world st'.
Proof.
  intros argv w t st H Hd.
  assert (D : forall st' : Proc, world (snd (dumpAllKeys t st')) = world st').
  { intros st'. rewrite dumpAllKeys_eq.
    destruct (open_read (world st') (walletPath t)); reflexivity. }
  split; [|exact D].
  destruct (parseArgs_outcome argv new_tool (mkProc w []))
    as [(t' & st1 & E & Hw) | (e' & E)]; rewrite E in H; [|discriminate].
  injection H as -> ->. cbn [world] in Hw.
  unfold main, main_body, bind. rewrite E. unfold execute. rewrite Hd.
  specialize (D st). rewrite Hw in D.
  destruct (dumpAllKeys t st) as [[[] | e |] st2]; cbn [snd] in D;
    cbn [final_world]; exact D.
Qed.

Lemma dump_changes_nothing_witness :
  parseArgs ["wallet-tool"; "--wallet"; "/w/wallet.dat"; "--dump-all-keys"]
    new_tool (mkProc (sample_world mkey_then_ckey) [])
  = (Ret (mkTool "/w/wallet.dat" "" "" false true),
     mkProc (sample_world mkey_then_ckey) [])
  /\ dumpKeys (mkTool "/w/wallet.dat" "" "" false true) = true
  /\ final_world
       (main ["wallet-tool"; "--wallet"; "/w/wallet.dat"; "--dump-all-keys"]
          (sample_world mkey_then_ckey))
     = sample_world mkey_then_ckey.
Proof.
  assert (H1 : parseArgs
                 ["wallet-tool"; "--wallet"; "/w/wallet.dat";
                  "--dump-all-keys"]
                 new_tool (mkProc (sample_world mkey_then_ckey) [])
               = (Ret (mkTool "/w/wallet.dat" "" "" false true),
                  mkProc (sample_world mkey_then_ckey) []))
    by reflexivity.
  assert (H2 : dumpKeys (mkTool "/w/wallet.dat" "" "" false true) = true)
    by reflexivity.
  split; [exact H1|]. split; [exact H2|].
  exact (proj1 (dump_changes_nothing _ _ _ _ H1 H2)).
Defined.

(** X26: the window of the master key lies in front of its tag, so the end
    of the file cannot cut it: whenever the first "mkey" stands at an
    offset of 72 or more, the "Mkey_encrypted: " line is the hex of the 48
    bytes at that offset less 72, whatever the buffer held. *)
Theorem master_key_window_precedes_tag :
  forall (data junk_m junk_c : list byte) (p : nat) (ps : list nat),
    occurrences tag_mkey data = p :: ps ->
    (72 <= p)%nat ->
    window_inside data 72 48 p
    /\ exists rest : list string,
         scan_keys data junk_m junk_c
         = Some (("Mkey_encrypted: "
                    +:+ hex_of_bytes (firstn 48 (skipn (p - 72) data)))
                   :: "" :: rest).
Proof.
  intros data jm jc p ps Ho Hp.
  destruct (filter_seq_head _ _ _ _ _ Ho) as [Ht _].
  apply tag_at_inside in Ht; [|reflexivity].
  assert (Hw : window_inside data 72 48 p) by (unfold window_inside; lia).
  split; [exact Hw|].
  eexists. rewrite scan_keys_spec, Ho, (mkey_line_inside data jm p Hw).
  reflexivity.
Qed.

Lemma master_key_window_precedes_tag_witness :
  occurrences tag_mkey mkey_then_ckey = [80%nat]
  /\ (72 <= 80)%nat
  /\ window_inside mkey_then_ckey 72 48 80.
Proof.
  assert (H1 : occurrences tag_mkey mkey_then_ckey = [80%nat])
    by (vm_compute; reflexivity).
  assert (H2 : (72 <= 80)%nat) by lia.
  split; [exact H1|]. split; [exact H2|].
  exact (proj1 (master_key_window_precedes_tag mkey_then_ckey [] [] 80 []
                  H1 H2)).
Defined.

End ScannerMore.

(* ===================================================================== *)
(** ** Further properties of the argument parser and the copy *)
(* ===================================================================== *)

Module ToolMore.
Import Hex Stdio Scanner Env Exn Tool Vocab HexFacts ScannerFacts ToolFacts.
Local Open Scope exn_scope.

Lemma empty_iff (s : string) : empty s = true <-> s = "".
Proof. destruct s; simpl; split; congruence. Qed.

(** X7: [validateOptions] lets through exactly two combinations: a wallet
    path with "--dump-all-keys" and nothing else, or a wallet path with
    "--remove-pass", a database type and a key and no "--dump-all-keys";
    every other combination throws, and nothing is written either way. *)
Theorem validateOptions_accepts :
  forall (t : WalletTool) (st : Proc),
    (validateOptions t st = (Ret tt, st) <-> valid_options t)
    /\ (~ valid_options t ->
        exists e : string, validateOptions t st = (Throw e, st)).
Proof.
  intros [wp ty hk rp dk] st. unfold validateOptions, valid_options.
  cbn [walletPath dbType hexKey removePass dumpKeys].
  destruct wp as [|c1 wp], ty as [|c2 ty], hk as [|c3 hk], rp, dk;
    cbn [empty negb orb andb]; unfold throw, ret;
    (split; [split; [intros H; try discriminate H | intros H] | intros H]);
    try (exfalso; intuition congruence);
    try (repeat split; intuition congruence);
    try reflexivity; eauto.
Qed.

(** Everything behind a "--help" that the parser reads as an option is
    left unread. *)
Lemma parse_loop_help_tail (rest rest' : list string) :
  forall (n : nat) (pre : list string) (t : WalletTool) (st : Proc),
    (List.length pre <= n)%nat ->
    reaches_option pre = true ->
    parse_loop (pre ++ "--help" :: rest) t st
    = parse_loop (pre ++ "--help" :: rest') t st.
Proof.
  induction n as [|n IH]; intros pre t st Hn Hr.
  - destruct pre; [reflexivity | simpl in Hn; lia].
  - destruct pre as [|arg pre]; [reflexivity|].
    simpl in Hn. cbn [app]. rewrite !parse_loop_cons.
    cbn [reaches_option] in Hr.
    destruct (String.eqb arg "--help"); [reflexivity|].
    destruct (String.eqb arg "--wallet").
    { cbn [orb] in Hr. destruct pre as [|v pre']; [discriminate|].
      cbn [app]. apply IH; [simpl in Hn; lia | exact Hr]. }
    destruct (String.eqb arg "--type").
    { cbn [orb] in Hr. destruct pre as [|v pre']; [discriminate|].
      cbn [app].
      destruct (negb (String.eqb v "BerkelyDB") && negb (String.eqb v "SQLite"));
        [reflexivity|].
      apply IH; [simpl in Hn; lia | exact Hr]. }
    destruct (String.eqb arg "--KEY").
    { cbn [orb] in Hr. destruct pre as [|v pre']; [discriminate|].
      cbn [app]. destruct (negb (isValidHexString v)); [reflexivity|].
      apply IH; [simpl in Hn; lia | exact Hr]. }
    cbn [orb] in Hr.
    destruct (String.eqb arg "--remove-pass"); [apply IH; [lia | exact Hr]|].
    destruct (String.eqb arg "--dump-all-keys");
      [apply IH; [lia | exact Hr]|].
    reflexivity.
Qed.

(** X8: "--help" ends the reading of the arguments: whatever follows a
    "--help" that stands in the place of an option is never examined, so
    two command lines that agree up to such a "--help" give the same run,
    however invalid their remainders are. *)
Theorem help_ends_parsing :
  forall (prog : string) (pre rest rest' : list string) (w : World),
    reaches_option pre = true ->
    main (prog :: pre ++ "--help" :: rest) w
    = main (prog :: pre ++ "--help" :: rest') w.
Proof.
  intros prog pre rest rest' w Hr. unfold main, main_body, bind, parseArgs.
  assert (L : forall r : list string,
             (List.length (prog :: pre ++ "--help" :: r) =? 1)%nat = false).
  { intros r. cbn [List.length]. rewrite length_app. cbn [List.length].
    apply Nat.eqb_neq. lia. }
  rewrite !L. cbn [tl].
  rewrite (parse_loop_help_tail rest rest' (List.length pre) pre new_tool
             (mkProc w []) (le_n _) Hr).
  reflexivity.
Qed.

Lemma help_ends_parsing_witness :
  reaches_option ["--wallet"; "/w/wallet.dat"] = true
  /\ main ("wallet-tool" :: ["--wallet"; "/w/wallet.dat"]
             ++ "--help" :: ["--no-such-option"; "--KEY"])
       (sample_world [])
     = main ("wallet-tool" :: ["--wallet"; "/w/wallet.dat"]
               ++ "--help" :: [])
         (sample_world []).
Proof.
  split; [reflexivity|].
  apply (help_ends_parsing "wallet-tool" ["--wallet"; "/w/wallet.dat"]
           ["--no-such-option"; "--KEY"] [] (sample_world [])).
  reflexivity.
Defined.

(** X9: "--help" does not end the run.  The fields set before it stay,
    [validateOptions] is skipped and [execute] runs: a command line that is
    refused for naming a database type together with "--dump-all-keys" is
    run, help text first and dump after it, with exit code 0, once
    "--help" is put at its end. *)
Theorem help_skips_validation :
  forall (prog p : string) (w : World),
    open_read w p = true ->
    exit_code
      (main [prog; "--wallet"; p; "--type"; "SQLite"; "--dump-all-keys"] w)
    = Some 1
    /\ stdout
         (main [prog; "--wallet"; p; "--type"; "SQLite"; "--dump-all-keys"] w)
       = []
    /\ exit_code
         (main [prog; "--wallet"; p; "--type"; "SQLite"; "--dump-all-keys";
                "--help"] w)
       = Some 0
    /\ exists lines : list string,
         scan_keys (files w !!! p) (malloc w 0 48) (malloc w 1 123)
         = Some lines
         /\ stdout
              (main [prog; "--wallet"; p; "--type"; "SQLite";
                     "--dump-all-keys"; "--help"] w)
            = cout (snd (showHelp (mkProc w []))) ++ lines.
Proof.
  intros prog p w Ho.
  assert (E1 : main_body
                 [prog; "--wallet"; p; "--type"; "SQLite"; "--dump-all-keys"]
                 (mkProc w [])
               = (t <- (validateOptions (mkTool p "SQLite" "" false true) ;;
                        ret (mkTool p "SQLite" "" false true)) ;;
                  execute t) (mkProc w []))
    by reflexivity.
  assert (V : exists e : string,
             validateOptions (mkTool p "SQLite" "" false true) (mkProc w [])
             = (Throw e, mkProc w [])).
  { unfold validateOptions.
    cbn [walletPath dbType hexKey removePass dumpKeys].
    destruct p; cbn [empty negb orb]; eexists; reflexivity. }
  destruct V as [e V].
  assert (E2 : main_body
                 [prog; "--wallet"; p; "--type"; "SQLite"; "--dump-all-keys";
                  "--help"] (mkProc w [])
               = dumpAllKeys (mkTool p "SQLite" "" false true)
                   (snd (showHelp (mkProc w [])))).
  { reflexivity. }
  split; [|split; [|split]].
  - unfold main. rewrite E1. unfold bind. rewrite V. reflexivity.
  - unfold main. rewrite E1. unfold bind. rewrite V. reflexivity.
  - unfold main. rewrite E2, dumpAllKeys_eq.
    cbn [showHelp print snd world walletPath]. rewrite Ho. reflexivity.
  - eexists. split; [apply scan_keys_spec|].
    unfold main. rewrite E2, dumpAllKeys_eq.
    cbn [showHelp print snd world walletPath cout]. rewrite Ho. reflexivity.
Qed.

Lemma help_skips_validation_witness :
  open_read (sample_world mkey_only) "/w/wallet.dat" = true
  /\ exit_code
       (main ["wallet-tool"; "--wallet"; "/w/wallet.dat"; "--type"; "SQLite";
              "--dump-all-keys"; "--help"] (sample_world mkey_only))
     = Some 0.
Proof.
  assert (H : open_read (sample_world mkey_only) "/w/wallet.dat" = true)
    by (vm_compute; reflexivity).
  split; [exact H|].
  exact (proj1 (proj2 (proj2
           (help_skips_validation "wallet-tool" "/w/wallet.dat"
              (sample_world mkey_only) H)))).
Defined.

(** X10: [execute] reads the wallet path and the two mode flags and nothing
    else: neither the database type nor the key has any effect on what is
    done. *)
Theorem execute_reads_path_and_flags :
  forall t1 t2 : WalletTool,
    walletPath t1 = walletPath t2 ->
    dumpKeys t1 = dumpKeys t2 ->
    removePass t1 = removePass t2 ->
    execute t1 = execute t2.
Proof.
  intros t1 t2 Hw Hd Hr. unfold execute.
  rewrite Hd, Hr, (dumpAllKeys_path _ _ Hw), (removePassword_path _ _ Hw).
  reflexivity.
Qed.

Lemma execute_reads_path_and_flags_witness :
  walletPath (mkTool "/w/wallet.dat" "SQLite" "0123456789" true false)
  = walletPath (mkTool "/w/wallet.dat" "BerkelyDB" "ABCDEFabcd" true false)
  /\ execute (mkTool "/w/wallet.dat" "SQLite" "0123456789" true false)
     = execute (mkTool "/w/wallet.dat" "BerkelyDB" "ABCDEFabcd" true false).
Proof.
  split; [reflexivity|].
  apply (execute_reads_path_and_flags
           (mkTool "/w/wallet.dat" "SQLite" "0123456789" true false)
           (mkTool "/w/wallet.dat" "BerkelyDB" "ABCDEFabcd" true false));
    reflexivity.
Defined.

(** The three ways the [try] block and its handler can end. *)
Lemma try_copy_cases (src desk dest : string) (w : World)
    (out : list string) :
  (exists e : string,
     try_catch (copy_wallet src desk dest)
       (fun what => throw ("Failed to process wallet file: " +:+ what))
       (mkProc w out)
     = (Throw e, mkProc w out))
  \/ try_catch (copy_wallet src desk dest)
       (fun what => throw ("Failed to process wallet file: " +:+ what))
       (mkProc w out)
     = (Throw "Failed to process wallet file: Error occurred while writing destination file",
        mkProc (set_files (<[dest := []]> (<[dest := []]> (files w))) w) out)
  \/ exists (b : byte) (data : list byte),
       files w !! src = Some (b :: data) /\ src <> dest
       /\ write_limit w <> Some 0%nat
       /\ try_catch (copy_wallet src desk dest)
            (fun what => throw ("Failed to process wallet file: " +:+ what))
            (mkProc w out)
          = (Ret tt,
             mkProc
               (set_files
                  (<[dest := limit (flush_limit w)
                               (limit (write_limit w) (b :: data))]>
                     (<[dest := []]> (files w))) w)
               (out ++ ["The new wallet.dat file with the password removed was saved to: "
                          +:+ dest])).
Proof.
  unfold try_catch.
  destruct (open_read w src) eqn:Ho.
  - destruct (open_write w desk dest) eqn:Hw.
    + rewrite (copy_wallet_opened _ _ _ _ _ Ho Hw).
      destruct (decide (dest = src)) as [<- | Hne].
      { rewrite lookup_total_insert_eq, !limit_nil. right; left; reflexivity. }
      rewrite lookup_total_insert_ne by exact Hne.
      rewrite lookup_total_alt.
      destruct (files w !! src) as [[|b data]|] eqn:Hx;
        cbn [default from_option id];
        try (rewrite !limit_nil; right; left; reflexivity).
      destruct (limit (write_limit w) (b :: data)) as [|b' taken] eqn:Hl.
      { rewrite limit_nil. right; left; reflexivity. }
      right; right. exists b, data.
      split; [reflexivity|]. split; [congruence|]. split.
      * intros Hz. rewrite Hz in Hl. discriminate.
      * rewrite Hl. reflexivity.
    + left. eexists. unfold copy_wallet, bind, get_world. cbn [world].
      rewrite Ho, Hw. reflexivity.
  - left. eexists. unfold copy_wallet, bind, get_world. cbn [world].
    rewrite Ho. reflexivity.
Qed.

(** [removePassword] either throws with the machine untouched, or reaches
    its [try] block on a machine that differs from the first at most by
    the Desktop directory just created. *)
Lemma removePassword_cases (t : WalletTool) (w : World) (out : list string) :
  (exists e : string,
     removePassword t (mkProc w out) = (Throw e, mkProc w out))
  \/ exists (home : string) (w2 : World),
       env_HOME w = Some home
       /\ (w2 = w
           \/ w2 = set_dirs ({[path_append home "Desktop"]} ∪ dirs w) w)
       /\ removePassword t (mkProc w out)
          = try_catch
              (copy_wallet (walletPath t) (path_append home "Desktop")
                 (dest_of home))
              (fun what => throw ("Failed to process wallet file: " +:+ what))
              (mkProc w2 out).
Proof.
  remember (removePassword t (mkProc w out)) as r eqn:Er.
  unfold removePassword in Er.
  unfold bind at 1 in Er. unfold get_world at 1 in Er. cbn [world] in Er.
  destruct (negb (fs_exists w (walletPath t)));
    [left; eexists; exact Er|].
  unfold bind at 1 in Er.
  destruct (env_HOME w) as [home|] eqn:Hh.
  - rewrite (getDesktopPath_eq (mkProc w out) home Hh) in Er.
    unfold bind at 1 in Er. unfold get_world at 1 in Er. cbn [world] in Er.
    unfold bind at 1 in Er.
    destruct (negb (fs_exists w (path_append home "Desktop"))).
    + unfold create_directories, bind, get_world, put_world, throw in Er.
      cbn [world cout] in Er.
      destruct (bool_decide _); [left; eexists; exact Er|].
      right.
      exists home, (set_dirs ({[path_append home "Desktop"]} ∪ dirs w) w).
      split; [reflexivity|]. split; [right; reflexivity | exact Er].
    + right. exists home, w.
      split; [reflexivity|]. split; [left; reflexivity | exact Er].
  - left. unfold getDesktopPath, bind, get_world in Er. cbn [world] in Er.
    rewrite Hh in Er. eexists. exact Er.
Qed.

(** X11: [removePassword] writes to the destination and to nothing else:
    whatever the outcome, every file other than <HOME>/Desktop/wallet.dat
    is afterwards what it was before, and no file is removed. *)
Theorem removePassword_touches_only_destination :
  forall (t : WalletTool) (w : World) (out : list string) (p : string),
    (forall home : string, env_HOME w = Some home -> p <> dest_of home) ->
    files (world (snd (removePassword t (mkProc w out)))) !! p = files w !! p.
Proof.
  intros t w out p Hp.
  destruct (removePassword_cases t w out)
    as [[e ->] | (home & w2 & Hh & Hw2 & ->)]; [reflexivity|].
  specialize (Hp home Hh).
  assert (F : files w2 = files w) by (destruct Hw2 as [-> | ->]; reflexivity).
  destruct (try_copy_cases (walletPath t) (path_append home "Desktop")
              (dest_of home) w2 out)
    as [[e ->] | [-> | (b & data & _ & _ & _ & ->)]];
    cbn [snd world files set_files]; rewrite ?F;
    rewrite ?lookup_insert_ne by congruence; reflexivity.
Qed.

Lemma removePassword_touches_only_destination_witness :
  (forall home : string,
     env_HOME (sample_world [x2a]) = Some home ->
     "/w/wallet.dat" <> dest_of home)
  /\ files
       (world
          (snd (removePassword
                  (mkTool "/w/wallet.dat" "SQLite" "0123456789" true false)
                  (mkProc (sample_world [x2a]) []))))
       !! "/w/wallet.dat"
     = files (sample_world [x2a]) !! "/w/wallet.dat".
Proof.
  assert (H : forall home : string,
             env_HOME (sample_world [x2a]) = Some home ->
             "/w/wallet.dat" <> dest_of home).
  { intros home Hh. injection Hh as <-. vm_compute. discriminate. }
  split; [exact H|].
  exact (removePassword_touches_only_destination
           (mkTool "/w/wallet.dat" "SQLite" "0123456789" true false)
           (sample_world [x2a]) [] "/w/wallet.dat" H).
Defined.

(** X12: what a return of [removePassword] tells.  The source is a
    non-empty file other than the destination and is unchanged, the stream
    has taken at least one byte, the one line written names the
    destination, and the destination holds the bytes of the source that
    the stream took and that reached the file: a leading part of the
    source, and the whole of it when neither the stream nor the flush met
    a limit.  The return by itself does not tell that a byte was
    written. *)
Theorem removePassword_success_leaves_a_prefix :
  forall (t : WalletTool) (w : World) (out : list string) (st' : Proc),
    removePassword t (mkProc w out) = (Ret tt, st') ->
    exists (home : string) (b : byte) (data : list byte),
      env_HOME w = Some home
      /\ files w !! walletPath t = Some (b :: data)
      /\ walletPath t <> dest_of home
      /\ write_limit w <> Some 0%nat
      /\ files (world st') !! dest_of home
         = Some (limit (flush_limit w) (limit (write_limit w) (b :: data)))
      /\ (exists n : nat,
            files (world st') !! dest_of home = Some (firstn n (b :: data)))
      /\ (write_limit w = None -> flush_limit w = None ->
          files (world st') !! dest_of home = Some (b :: data))
      /\ files (world st') !! walletPath t = Some (b :: data)
      /\ cout st'
         = out ++ ["The new wallet.dat file with the password removed was saved to: "
                     +:+ dest_of home].
Proof.
  intros t w out st' H.
  destruct (removePassword_cases t w out)
    as [[e E] | (home & w2 & Hh & Hw2 & E)]; rewrite E in H;
    [discriminate|].
  assert (F : files w2 = files w) by (destruct Hw2 as [-> | ->]; reflexivity).
  assert (L : write_limit w2 = write_limit w
              /\ flush_limit w2 = flush_limit w)
    by (destruct Hw2 as [-> | ->]; split; reflexivity).
  destruct L as [Lw Lf].
  destruct (try_copy_cases (walletPath t) (path_append home "Desktop")
              (dest_of home) w2 out)
    as [[e E'] | [E' | (b & data & Hf & Hne & Hz & E')]]; rewrite E' in H;
    try discriminate.
  injection H as <-. rewrite F in Hf. rewrite Lw in Hz. rewrite Lw, Lf.
  exists home, b, data. cbn [world cout files set_files].
  assert (D : <[dest_of home := limit (flush_limit w)
                                  (limit (write_limit w) (b :: data))]>
                (<[dest_of home := []]> (files w2)) !! dest_of home
              = Some (limit (flush_limit w)
                        (limit (write_limit w) (b :: data))))
    by apply lookup_insert_eq.
  split; [exact Hh|]. split; [exact Hf|]. split; [exact Hne|].
  split; [exact Hz|]. split; [exact D|]. split; [|split; [|split]].
  - rewrite D.
    destruct (limit_firstn (write_limit w) (b :: data)) as [n1 ->].
    destruct (limit_firstn (flush_limit w) (firstn n1 (b :: data)))
      as [n2 ->].
    exists (Nat.min n2 n1). rewrite firstn_firstn. reflexivity.
  - intros Hw Hl. rewrite D, Hw, Hl. reflexivity.
  - rewrite !lookup_insert_ne by congruence. rewrite F. exact Hf.
  - reflexivity.
Qed.

Lemma removePassword_success_leaves_a_prefix_witness :
  removePassword (mkTool "/w/wallet.dat" "SQLite" "0123456789" true false)
    (mkProc (full_disk_world [x2a]) [])
  = (Ret tt,
     snd (removePassword
            (mkTool "/w/wallet.dat" "SQLite" "0123456789" true false)
            (mkProc (full_disk_world [x2a]) [])))
  /\ exists (home : string) (b : byte) (data : list byte),
       env_HOME (full_disk_world [x2a]) = Some home
       /\ files (full_disk_world [x2a]) !! "/w/wallet.dat" = Some (b :: data)
       /\ files
            (world
               (snd (removePassword
                       (mkTool "/w/wallet.dat" "SQLite" "0123456789" true
                          false)
                       (mkProc (full_disk_world [x2a]) []))))
            !! dest_of home
          = Some (limit (Some 0%nat) (limit None (b :: data))).
Proof.
  assert (H : removePassword
                (mkTool "/w/wallet.dat" "SQLite" "0123456789" true false)
                (mkProc (full_disk_world [x2a]) [])
              = (Ret tt,
                 snd (removePassword
                        (mkTool "/w/wallet.dat" "SQLite" "0123456789" true
                           false)
                        (mkProc (full_disk_world [x2a]) []))))
    by (vm_compute; reflexivity).
  split; [exact H|].
  destruct (removePassword_success_leaves_a_prefix _ _ _ _ H)
    as (home & b & data & Hh & Hf & _ & _ & Hd & _).
  exists home, b, data. split; [exact Hh|]. split; [exact Hf | exact Hd].
Defined.

(** X27: the Desktop directory is made on the way: when the source exists,
    the home directory is known and the Desktop directory is missing and
    may be created, it exists after [removePassword], whether the copy
    that follows succeeds or throws. *)
Theorem desktop_directory_is_created :
  forall (t : WalletTool) (w : World) (out : list string) (home : string),
    fs_exists w (walletPath t) = true ->
    env_HOME w = Some home ->
    fs_exists w (path_append home "Desktop") = false ->
    path_append home "Desktop" ∉ unwritable w ->
    path_append home "Desktop"
    ∈ dirs (world (snd (removePassword t (mkProc w out)))).
Proof.
  intros t w out home He Hh Hm Hc.
  assert (E : removePassword t (mkProc w out)
              = try_catch
                  (copy_wallet (walletPath t) (path_append home "Desktop")
                     (dest_of home))
                  (fun what =>
                     throw ("Failed to process wallet file: " +:+ what))
                  (mkProc
                     (set_dirs ({[path_append home "Desktop"]} ∪ dirs w) w)
                     out)).
  { unfold removePassword.
    unfold bind at 1. unfold get_world at 1. cbn [world].
    rewrite He. cbn [negb].
    unfold bind at 1. rewrite (getDesktopPath_eq _ home) by exact Hh.
    unfold bind at 1. unfold get_world at 1. cbn [world].
    unfold bind at 1. rewrite Hm. cbn [negb].
    unfold create_directories, bind, get_world, put_world. cbn [world cout].
    rewrite (bool_decide_eq_false_2 _ Hc). reflexivity. }
  rewrite E.
  destruct (try_copy_cases (walletPath t) (path_append home "Desktop")
              (dest_of home)
              (set_dirs ({[path_append home "Desktop"]} ∪ dirs w) w) out)
    as [[e ->] | [-> | (b & data & _ & _ & _ & ->)]];
    cbn [snd world dirs set_files set_dirs]; set_solver.
Qed.

Lemma desktop_directory_is_created_witness :
  fs_exists (bare_world [x2a]) "/w/wallet.dat" = true
  /\ env_HOME (bare_world [x2a]) = Some "/home/u"
  /\ fs_exists (bare_world [x2a]) (path_append "/home/u" "Desktop") = false
  /\ (path_append "/home/u" "Desktop" ∉ unwritable (bare_world [x2a]))
  /\ (path_append "/home/u" "Desktop"
      ∈ dirs (world (snd (removePassword
                            (mkTool "/w/wallet.dat" "SQLite" "0123456789"
                               true false)
                            (mkProc (bare_world [x2a]) []))))).
Proof.
  assert (H1 : fs_exists (bare_world [x2a]) "/w/wallet.dat" = true)
    by (vm_compute; reflexivity).
  assert (H2 : env_HOME (bare_world [x2a]) = Some "/home/u") by reflexivity.
  assert (H3 : fs_exists (bare_world [x2a]) (path_append "/home/u" "Desktop")
               = false) by (vm_compute; reflexivity).
  assert (H4 : path_append "/home/u" "Desktop" ∉ unwritable (bare_world [x2a]))
    by (vm_compute; set_solver).
  repeat (split; [assumption|]).
  exact (desktop_directory_is_created
           (mkTool "/w/wallet.dat" "SQLite" "0123456789" true false)
           (bare_world [x2a]) [] "/home/u" H1 H2 H3 H4).
Defined.

End ToolMore.

(* ===================================================================== *)
(** ** Properties of [MetricsCollector] *)
(* ===================================================================== *)

Module MetricsFacts.
Import Metrics.

Lemma get_increment_same (k : string) (m : Counters) :
  fst (get k (increment k m)) = (fst (get k m) + 1) mod 2 ^ 64.
Proof.
  unfold get, increment, subscript.
  destruct (m !! k) as [v|] eqn:E; cbn [fst];
    rewrite lookup_insert_eq; reflexivity.
Qed.

Lemma get_increment_other (k k' : string) (m : Counters) :
  k <> k' -> fst (get k' (increment k m)) = fst (get k' m).
Proof.
  intros Hne. unfold get, increment, subscript.
  destruct (m !! k) as [v|] eqn:E;
    rewrite !lookup_insert_ne by exact Hne;
    destruct (m !! k'); reflexivity.
Qed.

(** X13: a counter counts modulo 2^64 and on its own: after [reset], [n]
    increments of a metric make [get] return [n mod 2^64] for it, and
    increments of one metric never change what [get] returns for
    another. *)
Theorem counters_count_independently :
  forall (k k' : string) (m : Counters) (n : nat),
    fst (get k (Nat.iter n (increment k) (reset m))) = Z.of_nat n mod 2 ^ 64
    /\ (k <> k' ->
        fst (get k' (Nat.iter n (increment k) m)) = fst (get k' m)).
Proof.
  intros k k' m n. split.
  - induction n as [|n IH]; [reflexivity|].
    rewrite Nat.iter_succ, get_increment_same, IH.
    rewrite Zplus_mod_idemp_l. f_equal. lia.
  - intros Hne. induction n as [|n IH]; [reflexivity|].
    rewrite Nat.iter_succ, get_increment_other by exact Hne. exact IH.
Qed.

(** X14: [get] is not a pure read: asking for a metric that was never
    incremented returns 0 and enters the metric into the map, which grows
    by one entry; asking for a metric that is there changes nothing. *)
Theorem get_enters_missing_metric :
  forall (k : string) (m : Counters),
    m !! k = None ->
    fst (get k m) = 0
    /\ snd (get k m) !! k = Some 0
    /\ size (snd (get k m)) = S (size m)
    /\ get k (snd (get k m)) = (0, snd (get k m)).
Proof.
  intros k m H. unfold get, subscript. rewrite H. cbn [fst snd].
  rewrite lookup_insert_eq.
  repeat split. apply map_size_insert_None, H.
Qed.

Lemma get_enters_missing_metric_witness :
  (∅ : Counters) !! "quantum_attempts" = None
  /\ size (snd (get "quantum_attempts" ∅)) = 1%nat.
Proof.
  assert (H : (∅ : Counters) !! "quantum_attempts" = None) by reflexivity.
  split; [exact H|].
  destruct (get_enters_missing_metric "quantum_attempts" ∅ H)
    as (_ & _ & -> & _).
  reflexivity.
Defined.

End MetricsFacts.

(* ===================================================================== *)
(** ** Properties of [WalletSecurity] *)
(* ===================================================================== *)

Module SecurityFacts.
Import Security.

Lemma to_minutes_lt (d : Z) :
  to_minutes d < 30 <-> d < 30 * ticks_per_minute.
Proof.
  unfold to_minutes, ticks_per_minute.
  pose proof (Z.quot_rem' d (60 * 1000000000)) as E.
  destruct (Z_le_gt_dec 0 d) as [Hd | Hd].
  - pose proof (Z.rem_bound_pos d (60 * 1000000000) Hd ltac:(lia)). lia.
  - pose proof (Z.rem_bound_abs d (60 * 1000000000) ltac:(lia)).
    pose proof (Z.rem_nonpos d (60 * 1000000000) ltac:(lia) ltac:(lia)).
    lia.
Qed.

Lemma refused_iff (now : Z) (s : WalletSecurity) :
  fst (validateAccess now s) = false
  <-> 3 <= failedAttempts s /\ now - lastAttempt s < 30 * ticks_per_minute.
Proof.
  unfold validateAccess, MAX_ATTEMPTS.
  pose proof (to_minutes_lt (now - lastAttempt s)) as M.
  destruct (Z.geb_spec (failedAttempts s) 3) as [H3 | H3];
    [destruct (Z.ltb_spec (to_minutes (now - lastAttempt s)) 30)|];
    cbn [fst]; split; try discriminate; try tauto; intros; lia.
Qed.

(** X15: access is refused exactly when three or more failures are on the
    count and less than 30 minutes of the clock lie between the last
    recorded failure and now (a clock set back keeps the door shut).  A
    refusal changes nothing; a grant leaves the time of the last failure
    and sets the count to zero when it had reached three. *)
Theorem access_refused_iff :
  forall (now : Z) (s : WalletSecurity),
    (fst (validateAccess now s) = false
     <-> 3 <= failedAttempts s
         /\ now - lastAttempt s < 30 * ticks_per_minute)
    /\ (fst (validateAccess now s) = false -> snd (validateAccess now s) = s)
    /\ (fst (validateAccess now s) = true ->
        snd (validateAccess now s)
        = mkSecurity (if 3 <=? failedAttempts s then 0 else failedAttempts s)
            (lastAttempt s)).
Proof.
  intros now s. unfold validateAccess, MAX_ATTEMPTS.
  pose proof (to_minutes_lt (now - lastAttempt s)) as M.
  destruct (Z.geb_spec (failedAttempts s) 3) as [H3 | H3].
  - destruct (Z.ltb_spec (to_minutes (now - lastAttempt s)) 30) as [Hm | Hm];
      cbn [fst snd].
    + split; [split; [intros _; split; [lia | apply M, Hm] | reflexivity]|].
      split; [reflexivity | discriminate].
    + split; [split; [discriminate | intros [_ H]; apply M in H; lia]|].
      split; [discriminate|]. intros _.
      destruct (Z.leb_spec 3 (failedAttempts s)); [reflexivity | lia].
  - cbn [fst snd].
    split; [split; [discriminate | intros [H _]; lia]|].
    split; [discriminate|]. intros _.
    destruct (Z.leb_spec 3 (failedAttempts s)); [lia|].
    destruct s; reflexivity.
Qed.

Lemma record_count (ts : list Z) :
  forall s : WalletSecurity,
    0 <= failedAttempts s ->
    failedAttempts s + Z.of_nat (List.length ts) < 2 ^ 64 ->
    failedAttempts
      (fold_left (fun s t => recordFailedAttempt t s) ts s)
    = failedAttempts s + Z.of_nat (List.length ts).
Proof.
  induction ts as [|t ts IH]; intros s H0 Hb; cbn [fold_left List.length].
  - lia.
  - cbn [List.length] in Hb. rewrite IH; cbn [recordFailedAttempt failedAttempts];
      rewrite Z.mod_small by lia; lia.
Qed.

(** X16: failures never grow old: once three or more failures have been
    recorded, at whatever times, access is refused during the 30 minutes
    that follow the last of them, and granted from then on. *)
Theorem three_failures_lock :
  forall (ts : list Z) (t now : Z),
    (2 <= List.length ts)%nat ->
    Z.of_nat (List.length ts) + 1 < 2 ^ 64 ->
    fst (validateAccess now
           (fold_left (fun s x => recordFailedAttempt x s) (ts ++ [t])
              new_security))
    = false
    <-> now - t < 30 * ticks_per_minute.
Proof.
  intros ts t now H2 Hb.
  rewrite refused_iff.
  rewrite fold_left_app. cbn [fold_left recordFailedAttempt failedAttempts
    lastAttempt].
  rewrite record_count by (cbn [new_security failedAttempts]; lia).
  cbn [new_security failedAttempts].
  rewrite Z.mod_small by lia. split; [tauto | intros H; split; [lia | exact H]].
Qed.

Lemma three_failures_lock_witness :
  (2 <= List.length [0; 1000])%nat
  /\ Z.of_nat (List.length [0; 1000]) + 1 < 2 ^ 64
  /\ fst (validateAccess (5000 + 29 * ticks_per_minute)
            (fold_left (fun s x => recordFailedAttempt x s)
               ([0; 1000] ++ [5000]) new_security))
     = false.
Proof.
  assert (H1 : (2 <= List.length [0; 1000])%nat) by (simpl; lia).
  assert (H2 : Z.of_nat (List.length [0; 1000]) + 1 < 2 ^ 64)
    by (vm_compute; reflexivity).
  split; [exact H1|]. split; [exact H2|].
  apply (three_failures_lock [0; 1000] 5000
           (5000 + 29 * ticks_per_minute) H1 H2).
  vm_compute. reflexivity.
Defined.

(** X17: when 30 minutes have passed, the grant wipes the count: the next
    failure is the first of three again and does not shut the door. *)
Theorem lock_expires_and_count_restarts :
  forall (now : Z) (s : WalletSecurity),
    3 <= failedAttempts s ->
    30 * ticks_per_minute <= now - lastAttempt s ->
    validateAccess now s = (true, mkSecurity 0 (lastAttempt s))
    /\ forall t now' : Z,
         fst (validateAccess now'
                (recordFailedAttempt t (snd (validateAccess now s))))
         = true.
Proof.
  intros now s H3 Hd.
  assert (E : validateAccess now s = (true, mkSecurity 0 (lastAttempt s))).
  { pose proof (to_minutes_lt (now - lastAttempt s)) as M.
    unfold validateAccess, MAX_ATTEMPTS.
    destruct (Z.geb_spec (failedAttempts s) 3) as [_ | H]; [|lia].
    destruct (Z.ltb_spec (to_minutes (now - lastAttempt s)) 30) as [Hm | _];
      [apply M in Hm; lia | reflexivity]. }
  split; [exact E|].
  intros t now'. rewrite E. reflexivity.
Qed.

Lemma lock_expires_and_count_restarts_witness :
  3 <= failedAttempts (mkSecurity 3 5000)
  /\ 30 * ticks_per_minute <= (5000 + 30 * ticks_per_minute)
                              - lastAttempt (mkSecurity 3 5000)
  /\ validateAccess (5000 + 30 * ticks_per_minute) (mkSecurity 3 5000)
     = (true, mkSecurity 0 5000).
Proof.
  assert (H1 : 3 <= failedAttempts (mkSecurity 3 5000)) by (simpl; lia).
  assert (H2 : 30 * ticks_per_minute
               <= (5000 + 30 * ticks_per_minute)
                  - lastAttempt (mkSecurity 3 5000))
    by (vm_compute; discriminate).
  split; [exact H1|]. split; [exact H2|].
  exact (proj1 (lock_expires_and_count_restarts _ _ H1 H2)).
Defined.

End SecurityFacts.

(* ===================================================================== *)
(** ** Properties of [WalletCache] *)
(* ===================================================================== *)

Module CacheFacts.
Import Cache.

Lemma pick_min (l : list (string * CacheEntry)) :
  forall m : string * CacheEntry,
    foldr pick None l = Some m ->
    In m l
    /\ forall z : string * CacheEntry,
         In z l -> timestamp (snd m) <= timestamp (snd z).
Proof.
  induction l as [|x l IH]; intros m H; cbn [foldr] in H; [discriminate|].
  destruct (foldr pick None l) as [y|] eqn:E; cbn [pick] in H.
  - destruct (IH y eq_refl) as [Hy Hmin].
    destruct (before y x) eqn:B; injection H as <-.
    + split; [right; exact Hy|]. intros z [<- | Hz]; [|apply Hmin, Hz].
      unfold before in B. apply orb_true_iff in B.
      destruct B as [B | B]; [lia|].
      apply andb_true_iff in B. lia.
    + split; [left; reflexivity|]. intros z [<- | Hz]; [lia|].
      specialize (Hmin z Hz). unfold before in B.
      apply orb_false_iff in B. destruct B as [B _]. lia.
  - injection H as <-. destruct l as [|x' l].
    + split; [left; reflexivity|]. intros z [<- | []]. lia.
    + cbn [foldr] in E. destruct (foldr pick None l); discriminate.
Qed.

(** What [std::min_element] finds is an entry of the cache, and no entry
    was stored before it. *)
Lemma oldest_spec (c : Entries) (k : string) (e : CacheEntry) :
  oldest c = Some (k, e) ->
  c !! k = Some e
  /\ forall (k' : string) (e' : CacheEntry),
       c !! k' = Some e' -> timestamp e <= timestamp e'.
Proof.
  intros H. apply pick_min in H. destruct H as [Hin Hmin]. split.
  - apply elem_of_map_to_list, list_elem_of_In, Hin.
  - intros k' e' H'. apply (Hmin (k', e')).
    apply list_elem_of_In, elem_of_map_to_list, H'.
Qed.

Lemma oldest_some (c : Entries) :
  (0 < size c)%nat -> exists (k : string) (e : CacheEntry), oldest c = Some (k, e).
Proof.
  intros Hs. unfold oldest.
  destruct (map_to_list c) as [|x l] eqn:E.
  - apply map_to_list_empty_iff in E. subst c.
    rewrite map_size_empty in Hs. lia.
  - cbn [foldr]. destruct (foldr pick None l) as [y|]; cbn [pick].
    + destruct (if before y x then y else x) as [k e]. eauto.
    + destruct x as [k e]. eauto.
Qed.

(** X18: what is stored is found again: [retrieve] after [store] under
    the same key returns the bytes stored, whether or not the cache was
    full and whatever the key held before. *)
Theorem retrieve_after_store :
  forall (key : string) (d : list byte) (now : Z) (c : Entries),
    retrieve key (store key d now c) = Some d.
Proof.
  intros key d now c. unfold retrieve, store.
  rewrite lookup_insert_eq. reflexivity.
Qed.

Lemma store_size (key : string) (d : list byte) (now : Z) (c : Entries) :
  (size c <= MAX_CACHE_SIZE)%nat ->
  (size (store key d now c) <= MAX_CACHE_SIZE)%nat.
Proof.
  intros Hs. unfold store. unfold MAX_CACHE_SIZE in *.
  destruct (Nat.leb_spec 1000 (size c)) as [Hfull | Hfree].
  - destruct (oldest_some c) as (k & e & E); [lia|].
    rewrite E. destruct (oldest_spec c k e E) as [Hk _].
    pose proof (map_size_delete_Some k c (ex_intro _ e Hk)) as Hd.
    rewrite map_size_insert.
    destruct (delete k c !! key); unfold id; lia.
  - rewrite map_size_insert. destruct (c !! key); unfold id; lia.
Qed.

(** X19: the cache never holds more than 1000 entries: whatever is stored
    into an empty cache, in whatever order and at whatever times, the
    bound holds after every [store]. *)
Theorem cache_never_exceeds_bound :
  forall ops : list (string * list byte * Z),
    (size
       (fold_left (fun c op => store (fst (fst op)) (snd (fst op)) (snd op) c)
          ops (∅ : Entries))
     <= 1000)%nat.
Proof.
  intros ops.
  assert (G : forall c : Entries,
             (size c <= MAX_CACHE_SIZE)%nat ->
             (size (fold_left
                      (fun c op =>
                         store (fst (fst op)) (snd (fst op)) (snd op) c)
                      ops c) <= MAX_CACHE_SIZE)%nat).
  { induction ops as [|op ops IH]; intros c Hc; [exact Hc|].
    cbn [fold_left]. apply IH, store_size, Hc. }
  apply G. rewrite map_size_empty. unfold MAX_CACHE_SIZE. lia.
Qed.

(** X20: a [store] into a full cache throws out one entry, and it is one
    that no other entry is older than; unless it is the entry being
    stored, it is gone afterwards, and every other entry is still there
    as it was. *)
Theorem full_cache_evicts_an_oldest_entry :
  forall (key : string) (d : list byte) (now : Z) (c : Entries),
    (1000 <= size c)%nat ->
    exists (k : string) (e : CacheEntry),
      c !! k = Some e
      /\ (forall (k' : string) (e' : CacheEntry),
            c !! k' = Some e' -> timestamp e <= timestamp e')
      /\ (k <> key -> store key d now c !! k = None)
      /\ (forall k' : string,
            k' <> k -> k' <> key -> store key d now c !! k' = c !! k').
Proof.
  intros key d now c Hfull.
  destruct (oldest_some c) as (k & e & E); [lia|].
  destruct (oldest_spec c k e E) as [Hk Hmin].
  exists k, e. split; [exact Hk|]. split; [exact Hmin|].
  unfold store, MAX_CACHE_SIZE.
  destruct (Nat.leb_spec 1000 (size c)) as [_ | H]; [|lia].
  rewrite E. split.
  - intros Hne. rewrite lookup_insert_ne by congruence.
    apply lookup_delete_eq.
  - intros k' H1 H2. rewrite lookup_insert_ne by congruence.
    apply lookup_delete_ne. congruence.
Qed.

Lemma full_cache_evicts_an_oldest_entry_witness :
  (1000 <= size (filled 1000))%nat
  /\ exists (k : string) (e : CacheEntry),
       filled 1000 !! k = Some e
       /\ (k <> key_of 1000 ->
           store (key_of 1000) [x2a] 2000 (filled 1000) !! k = None).
Proof.
  assert (H : (1000 <= size (filled 1000))%nat) by (vm_compute; lia).
  split; [exact H|].
  destruct (full_cache_evicts_an_oldest_entry (key_of 1000) [x2a] 2000
              (filled 1000) H) as (k & e & Hk & _ & Hgone & _).
  exists k, e. split; assumption.
Defined.

(** X21: below the bound [store] throws nothing out: every entry under
    another key is afterwards what it was. *)
Theorem store_below_bound_keeps_entries :
  forall (key k' : string) (d : list byte) (now : Z) (c : Entries),
    (size c < 1000)%nat ->
    k' <> key ->
    store key d now c !! k' = c !! k'.
Proof.
  intros key k' d now c Hs Hne. unfold store, MAX_CACHE_SIZE.
  destruct (Nat.leb_spec 1000 (size c)) as [H | _]; [lia|].
  apply lookup_insert_ne. congruence.
Qed.

Lemma store_below_bound_keeps_entries_witness :
  (size (filled 3) < 1000)%nat
  /\ key_of 1 <> key_of 7
  /\ store (key_of 7) [x2a] 50 (filled 3) !! key_of 1 = filled 3 !! key_of 1.
Proof.
  assert (H1 : (size (filled 3) < 1000)%nat) by (vm_compute; lia).
  assert (H2 : key_of 1 <> key_of 7) by (vm_compute; discriminate).
  split; [exact H1|]. split; [exact H2|].
  exact (store_below_bound_keeps_entries (key_of 7) (key_of 1) [x2a] 50
           (filled 3) H1 H2).
Defined.

(** X22: refreshing an entry of a full cache costs another entry: when the
    key is already in the cache, no room is needed, and yet the oldest
    entry is thrown out, so that the cache ends one entry smaller. *)
Theorem refresh_in_full_cache_drops_an_entry :
  forall (key k : string) (e : CacheEntry) (d : list byte) (now : Z)
         (c : Entries),
    (1000 <= size c)%nat ->
    is_Some (c !! key) ->
    oldest c = Some (k, e) ->
    k <> key ->
    size (store key d now c) = (size c - 1)%nat
    /\ store key d now c !! k = None.
Proof.
  intros key k e d now c Hfull Hin E Hne.
  destruct (oldest_spec c k e E) as [Hk _].
  unfold store, MAX_CACHE_SIZE.
  destruct (Nat.leb_spec 1000 (size c)) as [_ | H]; [|lia].
  rewrite E. split.
  - rewrite map_size_insert_Some
      by (rewrite lookup_delete_ne by exact Hne; exact Hin).
    rewrite (map_size_delete_Some k c (ex_intro _ e Hk)). lia.
  - rewrite lookup_insert_ne by congruence. apply lookup_delete_eq.
Qed.

Lemma refresh_in_full_cache_drops_an_entry_witness :
  (1000 <= size (filled 1000))%nat
  /\ is_Some (filled 1000 !! key_of 5)
  /\ oldest (filled 1000) = Some (key_of 0, mkEntry [] 0)
  /\ key_of 0 <> key_of 5
  /\ size (store (key_of 5) [x2a] 2000 (filled 1000)) = 999%nat.
Proof.
  assert (H1 : (1000 <= size (filled 1000))%nat) by (vm_compute; lia).
  assert (H2 : is_Some (filled 1000 !! key_of 5))
    by (vm_compute; eexists; reflexivity).
  assert (H3 : oldest (filled 1000) = Some (key_of 0, mkEntry [] 0))
    by (vm_compute; reflexivity).
  assert (H4 : key_of 0 <> key_of 5) by (vm_compute; discriminate).
  repeat (split; [assumption|]).
  rewrite (proj1 (refresh_in_full_cache_drops_an_entry (key_of 5) (key_of 0)
                    (mkEntry [] 0) [x2a] 2000 (filled 1000) H1 H2 H3 H4)).
  vm_compute. reflexivity.
Defined.

End CacheFacts.

(* ===================================================================== *)
(** ** Properties of the integer phases of [LWalletDecryptor] *)
(* ===================================================================== *)

Module DecryptorFacts.
Import Hex Decryptor ScannerMore.

Lemma lxor_below (a b n : Z) :
  0 < n -> 0 <= a < 2 ^ n -> 0 <= b < 2 ^ n -> 0 <= Z.lxor a b < 2 ^ n.
Proof.
  intros Hn Ha Hb.
  assert (H0 : 0 <= Z.lxor a b) by (apply Z.lxor_nonneg; lia).
  split; [exact H0|].
  destruct (Z.eq_dec (Z.lxor a b) 0) as [-> | Hne];
    [apply Z.pow_pos_nonneg; lia|].
  apply Z.log2_lt_pow2; [lia|].
  eapply Z.le_lt_trans; [apply Z.log2_lxor; lia|].
  apply Z.max_lub_lt.
  - destruct (Z.eq_dec a 0) as [-> | Ha0]; [simpl; lia|].
    apply Z.log2_lt_pow2; lia.
  - destruct (Z.eq_dec b 0) as [-> | Hb0]; [simpl; lia|].
    apply Z.log2_lt_pow2; lia.
Qed.

Lemma land_below (a b n : Z) :
  0 < n -> 0 <= a < 2 ^ n -> 0 <= b -> 0 <= Z.land a b < 2 ^ n.
Proof.
  intros Hn Ha Hb.
  assert (H0 : 0 <= Z.land a b) by (apply Z.land_nonneg; lia).
  split; [exact H0|].
  destruct (Z.eq_dec (Z.land a b) 0) as [-> | Hne];
    [apply Z.pow_pos_nonneg; lia|].
  apply Z.log2_lt_pow2; [lia|].
  eapply Z.le_lt_trans; [apply Z.log2_land; lia|].
  apply Z.min_lt_iff. left.
  destruct (Z.eq_dec a 0) as [-> | Ha0]; [simpl; lia|].
  apply Z.log2_lt_pow2; lia.
Qed.

Lemma shifted_byte_below (b : byte) (i : nat) :
  0 <= Z.shiftl (byte_val b) (Z.of_nat (i mod 8)) < 2 ^ 15.
Proof.
  pose proof (byte_val_range b) as Hb.
  assert (Hi : (i mod 8 < 8)%nat) by (apply Nat.mod_upper_bound; lia).
  rewrite Z.shiftl_mul_pow2 by lia.
  assert (Hp : 0 < 2 ^ Z.of_nat (i mod 8) <= 2 ^ 7).
  { split; [apply Z.pow_pos_nonneg; lia|].
    apply Z.pow_le_mono_r; lia. }
  change (2 ^ 15) with (256 * 2 ^ 7). nia.
Qed.

(** The signature never has a bit above the fourteenth. *)
Lemma finalize_loop_below (ter : list byte) :
  forall (i : nat) (q : Z),
    0 <= q < 2 ^ 15 -> 0 <= finalize_loop ter i q < 2 ^ 15.
Proof.
  induction ter as [|b ter IH]; intros i q Hq; cbn [finalize_loop];
    [exact Hq|].
  apply IH.
  pose proof (lxor_below q _ 15 ltac:(lia) Hq (shifted_byte_below b i)) as H.
  rewrite Z.mod_small; [exact H|].
  split; [lia|]. eapply Z.lt_trans; [apply H|]. reflexivity.
Qed.

(** X23: the last phase cannot succeed: [finalizeQuantumState] returns
    false on every vector, because the signature it builds stays below
    2^15 while the value it is compared with is 0xAE8C64F03. *)
Theorem finalizeQuantumState_never_succeeds :
  forall v : WalletVector, finalizeQuantumState v = false.
Proof.
  intros v. unfold finalizeQuantumState.
  pose proof (finalize_loop_below (tertiaryVector v) 0 0 ltac:(lia)) as H.
  pose proof (land_below _ QUANTUM_SEED 15 ltac:(lia) H
                ltac:(unfold QUANTUM_SEED; lia)) as L.
  apply Z.eqb_neq. intros E. rewrite E in L.
  revert L. vm_compute. intros [_ L]. discriminate L.
Qed.

Lemma align_loop_zero (sec : list byte) :
  forall (i : nat) (ter : list byte),
    Forall (eq x00) sec -> fst (align_loop sec i 0 ter) = 0.
Proof.
  induction sec as [|b sec IH]; intros i ter H; [reflexivity|].
  inversion H as [|? ? Hb Hs]; subst. cbn [align_loop].
  change (Z.lxor 0 ((byte_val x00 * QUANTUM_SEED) mod 2 ^ 64)) with 0.
  apply IH, Hs.
Qed.

Lemma align_loop_length (sec : list byte) :
  forall (i : nat) (a : Z) (ter : list byte),
    List.length (snd (align_loop sec i a ter)) = List.length ter.
Proof.
  induction sec as [|b sec IH]; intros i a ter; [reflexivity|].
  cbn [align_loop]. rewrite IH. apply length_insert.
Qed.

(** X24: a secondary vector of NUL bytes never passes
    [alignQuantumStates]: the alignment stays 0 and the phase returns
    false; the tertiary vector keeps its length. *)
Theorem zero_vector_fails_alignment :
  forall v : WalletVector,
    Forall (eq x00) (secondaryVector v) ->
    fst (alignQuantumStates v) = false
    /\ List.length (tertiaryVector (snd (alignQuantumStates v)))
       = List.length (tertiaryVector v).
Proof.
  intros v H. unfold alignQuantumStates.
  pose proof (align_loop_zero (secondaryVector v) 0 (tertiaryVector v) H) as Z0.
  pose proof (align_loop_length (secondaryVector v) 0 0 (tertiaryVector v))
    as L.
  destruct (align_loop (secondaryVector v) 0 0 (tertiaryVector v))
    as [a ter]. cbn [fst snd] in *. subst a. split; [reflexivity | exact L].
Qed.

Lemma zero_vector_fails_alignment_witness :
  Forall (eq x00)
    (secondaryVector (mkVector [x00; x00] (repeat x00 4) (repeat x00 6) 0 0))
  /\ fst (alignQuantumStates
            (mkVector [x00; x00] (repeat x00 4) (repeat x00 6) 0 0))
     = false.
Proof.
  assert (H : Forall (eq x00)
                (secondaryVector
                   (mkVector [x00; x00] (repeat x00 4) (repeat x00 6) 0 0)))
    by (repeat constructor).
  split; [exact H|].
  exact (proj1 (zero_vector_fails_alignment _ H)).
Defined.

End DecryptorFacts.

(* ===================================================================== *)
(** ** Properties of the database processor *)
(* ===================================================================== *)

Module DbProcessorFacts.
Import Env Metrics DbProcessor MetricsFacts.

(** X25: [processAdvancedDatabaseDecryption] reports success exactly when
    the path exists: the file is never opened and the key changes nothing.
    Every call adds one to "database_processing_attempts", and a
    successful one adds one to "database_processing_success". *)
Theorem database_processing_only_tests_existence :
  forall (w : World) (now : Z) (path key key' : string) (m : Counters),
    fst (processAdvancedDatabaseDecryption w now path key m)
    = fs_exists w path
    /\ processAdvancedDatabaseDecryption w now path key m
       = processAdvancedDatabaseDecryption w now path key' m
    /\ fst (get "database_processing_attempts"
              (snd (processAdvancedDatabaseDecryption w now path key m)))
       = (fst (get "database_processing_attempts" m) + 1) mod 2 ^ 64
    /\ fst (get "database_processing_success"
              (snd (processAdvancedDatabaseDecryption w now path key m)))
       = if fs_exists w path
         then (fst (get "database_processing_success" m) + 1) mod 2 ^ 64
         else fst (get "database_processing_success" m).
Proof.
  intros w now path key key' m.
  unfold processAdvancedDatabaseDecryption, initializeProcessingContext,
    processBerkeleyStructures, processSQLiteTransformation, finalizeProcessing.
  cbn [primaryTransformationVector negb].
  rewrite repeat_length.
  destruct (fs_exists w path); cbn [negb fst snd].
  - change (0 <? DATABASE_PROCESSING_BLOCKS)%nat with true. cbn [negb fst snd].
    split; [reflexivity|]. split; [reflexivity|]. split.
    + rewrite get_increment_other by discriminate.
      apply get_increment_same.
    + rewrite get_increment_same.
      rewrite get_increment_other by discriminate. reflexivity.
  - split; [reflexivity|]. split; [reflexivity|]. split.
    + apply get_increment_same.
    + apply get_increment_other. discriminate.
Qed.

End DbProcessorFacts.
